(** * Eigenvalue prompt: command registry, completion, dispatch, history

    A shallow embedding of the prompt of the Eigenvalue Matrix client
    (the C file holding [complete], [run_command], [on_stdin_ready],
    [ev_prompt_init]; [ev-prompt.h]; the registration code of
    [ev-application.c] and [ev-matrix.c]).

    C strings are [string]s (the terminating NUL is the end of the
    string), [int] and [size_t] values are [Z], a NULL-terminated
    [GStrv] is a [list string] and a pointer that may be NULL is an
    [option].  The file-static variables [commands], [el] and [hist]
    are the fields of [Session] and are threaded explicitly.  What the
    code writes with [g_print], and which callbacks it invokes, is
    collected in a list of [event]s.

    The file has three parts: the model of the code, the notions the
    statements are phrased with and the sample data of the concrete
    runs, and then the facts, one section per topic. *)

From Stdlib Require Import String Ascii List ZArith Lia Bool DecimalString DecimalPos.
Import ListNotations.
Local Open Scope string_scope.
Local Open Scope Z_scope.

(** ** C strings *)

Module CStr.

Definition LF : string := String "010"%char "".
Definition ESC : string := String "027"%char "".

(** [strlen] *)
Definition strlen (s : string) : Z := Z.of_nat (String.length s).

(** Conversion of an [int] to the 64-bit [size_t] (usual arithmetic
    conversion in [pos > strlen (name)], parameter passing to
    [strncmp]). *)
Definition to_size_t (z : Z) : Z := z mod 2 ^ 64.

(** Conversion of an [int] to the 32-bit [guint]. *)
Definition to_guint (z : Z) : Z := z mod 2 ^ 32.

Definition code (c : ascii) : Z := Z.of_nat (nat_of_ascii c).

(** [strncmp (s1, s2, n)]: compares at most [n] characters and stops at
    the first difference or at the end of both strings. *)
Fixpoint strncmp (s1 s2 : string) (n : Z) : Z :=
  if n <=? 0 then 0 else
  match s1, s2 with
  | EmptyString, EmptyString => 0
  | EmptyString, String c2 _ => - code c2
  | String c1 _, EmptyString => code c1
  | String c1 t1, String c2 t2 =>
      if Ascii.eqb c1 c2 then strncmp t1 t2 (n - 1) else code c1 - code c2
  end.

(** [g_str_equal] and [g_strcmp0 (a, b) == 0] on non-NULL strings. *)
Definition g_str_equal (a b : string) : bool := String.eqb a b.

(** The first [n] characters of [s], and [s] without them ([s + n]). *)
Fixpoint take (n : nat) (s : string) : string :=
  match n, s with
  | S n', String c t => String c (take n' t)
  | _, _ => EmptyString
  end.

Fixpoint skip (n : nat) (s : string) : string :=
  match n, s with
  | S n', String _ t => skip n' t
  | _, _ => s
  end.

(** [&s[pos]]: defined while [pos] stays inside the string, its
    terminator included. *)
Definition from (s : string) (pos : Z) : option string :=
  if (0 <=? pos) && (pos <=? strlen s)
  then Some (skip (Z.to_nat pos) s) else None.

(** [s[0]], the terminator being [None]. *)
Definition first_char (s : string) : option ascii :=
  match s with
  | EmptyString => None
  | String c _ => Some c
  end.

Definition starts_with_slash (s : string) : bool :=
  match first_char s with
  | Some c => Ascii.eqb c "/"%char
  | None => false
  end.

(** The last character of a non-empty string. *)
Fixpoint last_char (s : string) : option ascii :=
  match s with
  | EmptyString => None
  | String c EmptyString => Some c
  | String _ t => last_char t
  end.

End CStr.
Import CStr.

(** ** Results of C code that can leave the defined behaviour

    [Undefined] stands for a read outside an object or of an
    uninitialised pointer, [Aborted] for a failed [g_assert]. *)

Inductive result (A : Type) : Type :=
| Ok (a : A)
| Undefined
| Aborted.
Arguments Ok {A} a.
Arguments Undefined {A}.
Arguments Aborted {A}.

Definition bind {A B} (r : result A) (k : A -> result B) : result B :=
  match r with
  | Ok a => k a
  | Undefined => Undefined
  | Aborted => Aborted
  end.

Notation "x <- r ;; k" := (bind r (fun x => k))
  (at level 61, r at next level, right associativity).

(** ** The libedit interface used by the prompt

    libedit is an external library: its functions are not part of the
    program.  The definitions of this module follow the documented
    behaviour of the calls the program makes (editline(3), the
    tokenizer and history sections), restricted to what the program
    uses.  Memory exhaustion inside the library is not modelled. *)

Module Libedit.

(** *** The line of the editing widget ([LineInfo])

    [buffer] holds the characters between [li->buffer] and
    [li->lastchar]; [cursor] is [li->cursor - li->buffer]. *)
Record LineInfo := { buffer : string; cursor : nat }.

(** The widget, as far as the prompt observes it. *)
Record EditLine := { el_line : LineInfo }.

(** [el_init]: a fresh widget has an empty line. *)
Definition el_init : EditLine := {| el_line := {| buffer := ""; cursor := 0 |} |}.

(** [el_insertstr (el, s)]: "Insert str into the line at the cursor.
    Returns -1 if str is empty or won't fit, and 0 otherwise."
    [None] is the return value -1; the line is then unchanged. *)
Definition el_insertstr (e : EditLine) (s : string) : option EditLine :=
  match s with
  | EmptyString => None
  | _ =>
      let li := el_line e in
      Some {| el_line :=
                {| buffer := take (cursor li) (buffer li) ++ s
                               ++ skip (cursor li) (buffer li);
                   cursor := (cursor li + String.length s)%nat |} |}
  end.

(** *** The tokenizer

    [tok_line] is modelled on a tokenizer that has been reset: the
    program calls [tok_reset] after every use ([out:] in [complete],
    [reset] in [on_stdin_ready]).  The separators are the default
    ones of [tok_init (NULL)]: tab, blank and newline. *)

Inductive quote_t := Q_none | Q_single | Q_double | Q_one | Q_doubleone.

Record Tokenizer := {
  t_argv : list string;   (* finished words *)
  t_word : string;        (* the word being built, wstart .. wptr *)
  t_quote : quote_t;
  t_keep : bool;          (* TOK_KEEP *)
  t_eat : bool            (* TOK_EAT *)
}.

Definition tok_reset : Tokenizer :=
  {| t_argv := []; t_word := ""; t_quote := Q_none;
     t_keep := false; t_eat := false |}.

Definition tok_finish (t : Tokenizer) : Tokenizer :=
  if t_keep t || negb (String.eqb (t_word t) "")
  then {| t_argv := t_argv t ++ [t_word t]; t_word := "";
          t_quote := t_quote t; t_keep := false; t_eat := t_eat t |}
  else {| t_argv := t_argv t; t_word := t_word t;
          t_quote := t_quote t; t_keep := false; t_eat := t_eat t |}.

(** What [tok_line] hands back: a negative return value, a positive one
    (the line is incomplete: 1 and 2 for an open quote, 3 for a
    trailing backslash-newline; the output parameters are then not
    written), or 0 with [argv], [cursorc] and [cursoro] ([argc] is the
    length of [argv]).  [TokUndefined]: the scan leaves the buffer (a
    backslash is the very last character of the line). *)
Inductive tok_result :=
| TokError
| TokMore (code : Z)
| TokUndefined
| TokOk (av : list string) (cc co : Z).

Definition add_char (t : Tokenizer) (c : ascii) (q : quote_t) (keep : bool) : Tokenizer :=
  {| t_argv := t_argv t; t_word := t_word t ++ String c "";
     t_quote := q; t_keep := keep; t_eat := false |}.

Definition set_quote (t : Tokenizer) (q : quote_t) (keep eat : bool) : Tokenizer :=
  {| t_argv := t_argv t; t_word := t_word t;
     t_quote := q; t_keep := keep; t_eat := eat |}.

Definition is_ifs (c : ascii) : bool :=
  Ascii.eqb c "009"%char || Ascii.eqb c " "%char || Ascii.eqb c "010"%char.

(** The cursor position reported at [tok_line_outok]: the one recorded
    when the scan passed the cursor, else the position at the end. *)
Definition tok_out (t : Tokenizer) (cur : option (Z * Z)) : tok_result :=
  let '(cc, co) :=
    match cur with
    | Some p => p
    | None => (Z.of_nat (List.length (t_argv t)), strlen (t_word t))
    end in
  TokOk (t_argv (tok_finish t)) cc co.

(** One character of the scan: either the scan goes on with a new
    tokenizer state, or the line ends here. *)
Definition tok_char (t : Tokenizer) (c : ascii) : Tokenizer + unit :=
  if Ascii.eqb c "'"%char then
    match t_quote t with
    | Q_none => inl (set_quote t Q_single true false)
    | Q_single => inl (set_quote t Q_none true false)
    | Q_one => inl (add_char t c Q_none true)
    | Q_double => inl (add_char t c Q_double true)
    | Q_doubleone => inl (add_char t c Q_double true)
    end
  else if Ascii.eqb c "034"%char then
    match t_quote t with
    | Q_none => inl (set_quote t Q_double true false)
    | Q_double => inl (set_quote t Q_none true false)
    | Q_one => inl (add_char t c Q_none true)
    | Q_single => inl (add_char t c Q_single true)
    | Q_doubleone => inl (add_char t c Q_double true)
    end
  else if Ascii.eqb c "\"%char then
    match t_quote t with
    | Q_none => inl (set_quote t Q_one true false)
    | Q_double => inl (set_quote t Q_doubleone true false)
    | Q_one => inl (add_char t c Q_none true)
    | Q_single => inl (add_char t c Q_single true)
    | Q_doubleone => inl (add_char t c Q_double true)
    end
  else if Ascii.eqb c "010"%char then
    match t_quote t with
    | Q_none => inr tt
    | Q_single => inl (add_char t c Q_single (t_keep t))
    | Q_double => inl (add_char t c Q_double (t_keep t))
    | Q_doubleone => inl (set_quote t Q_double (t_keep t) true)
    | Q_one => inl (set_quote t Q_none (t_keep t) true)
    end
  else
    match t_quote t with
    | Q_none =>
        if is_ifs c
        then inl (set_quote (tok_finish t) Q_none false false)
        else inl (add_char t c Q_none (t_keep t))
    | Q_single => inl (add_char t c Q_single (t_keep t))
    | Q_double => inl (add_char t c Q_double (t_keep t))
    | Q_doubleone =>
        inl (add_char (add_char t "\"%char Q_double (t_keep t)) c Q_double (t_keep t))
    | Q_one => inl (add_char t c Q_none (t_keep t))
    end.

(** The scan of the characters from index [i] on; at the end of the
    buffer the scan sees a terminator. *)
Fixpoint tok_scan (t : Tokenizer) (cur : option (Z * Z)) (cursor i : nat)
    (s : string) : tok_result :=
  match s with
  | EmptyString =>
      match t_quote t with
      | Q_none => if t_eat t then TokMore 3 else tok_out t cur
      | Q_single => TokMore 1
      | Q_double => TokMore 2
      | Q_one | Q_doubleone => TokUndefined
      end
  | String c rest =>
      let cur' :=
        if Nat.eqb i cursor
        then Some (Z.of_nat (List.length (t_argv t)), strlen (t_word t))
        else cur in
      match tok_char t c with
      | inl t' => tok_scan t' cur' cursor (S i) rest
      | inr _ => tok_out t cur'
      end
  end.

Definition tok_line (li : LineInfo) : tok_result :=
  tok_scan tok_reset None (cursor li) 0 (buffer li).

(** *** The history ([history (hist, &ev, op, ...)])

    Events are kept most recent first, as [H_FIRST]/[H_NEXT] walk
    them. *)
Record HistEvent := { num : Z; str : string }.

Record History := {
  h_events : list HistEvent;
  h_max : Z;        (* set by H_SETSIZE *)
  h_eventid : Z;    (* number of the last event entered *)
  h_unique : bool   (* set by H_SETUNIQUE *)
}.

(** [history_init]. *)
Definition history_init : History :=
  {| h_events := []; h_max := 0; h_eventid := 0; h_unique := false |}.

(** [H_SETSIZE]: "Set size of history to size elements." *)
Definition history_setsize (h : History) (n : Z) : History :=
  if n <? 0 then h
  else {| h_events := h_events h; h_max := n;
          h_eventid := h_eventid h; h_unique := h_unique h |}.

(** [H_SETUNIQUE]: "Set flag that adjacent identical event strings
    should not be entered into the history." *)
Definition history_setunique (h : History) (u : bool) : History :=
  {| h_events := h_events h; h_max := h_max h;
     h_eventid := h_eventid h; h_unique := u |}.

(** The eviction loop of [H_ENTER]: while there are more events than
    the size allows, the oldest one is deleted. *)
Fixpoint history_trim (fuel : nat) (max : Z) (l : list HistEvent) : list HistEvent :=
  match fuel with
  | O => l
  | S fuel' =>
      if (max <? Z.of_nat (List.length l)) && (0 <? Z.of_nat (List.length l))
      then history_trim fuel' max (removelast l)
      else l
  end.

(** The test of [H_ENTER] under the unique flag: the string is that of
    the most recent event. *)
Definition is_dup (h : History) (s : string) : bool :=
  match h_events h with
  | e :: _ => h_unique h && String.eqb (str e) s
  | [] => false
  end.

(** [H_ENTER]: "Add str as a new element to the history and, if
    necessary, removing the oldest entry to keep the list to the
    created size.  If H_SETUNIQUE has been called with a non-zero
    argument, the element will not be entered into the history if its
    contents match the ones of the current history element." *)
Definition history_enter (h : History) (s : string) : History :=
  if is_dup h s then h
  else
    let id := h_eventid h + 1 in
    let l := {| num := id; str := s |} :: h_events h in
    {| h_events := history_trim (List.length l) (h_max h) l;
       h_max := h_max h; h_eventid := id; h_unique := h_unique h |}.

(** [H_LOAD]: the lines of the history file, oldest first as [H_SAVE]
    writes them, are entered one after the other. *)
Definition history_load (h : History) (lines : list string) : History :=
  fold_left history_enter lines h.

Definition h_strs (h : History) : list string := map str (h_events h).

End Libedit.
Import Libedit.

(** ** The prompt *)

(** *** Commands and options ([ev-prompt.h]) *)

(** What a callback can read of the file-static state when it runs:
    the names held by [commands] and the history. *)
Record Statics := { s_names : list string; s_hist : History }.

(** [EvCmdOptCompl]: [GStrv (const char *word, int len)]. *)
Definition EvCmdOptCompl : Type := Statics -> string -> Z -> option (list string).

(** A handler returns a [GString] or NULL and may set a [GError]. *)
Record HandlerResult := { h_out : option string; h_err : option string }.

(** [EvCmdFunc]: [GString *(GStrv args, GError **error)].  A handler
    is given by what it returns, and it reads the file-static state
    only; a call that does not return (six handlers of [ev-matrix.c]
    begin with [g_assert (client)] and stop the program when there is
    no client) has no value of this type, so what is stated of
    [run_command] and [on_stdin_ready] is stated of calls that
    return. *)
Definition EvCmdFunc : Type := Statics -> list string -> HandlerResult.

Definition EV_CMD_OPT_FLAG_NONE : Z := 0.
Definition EV_CMD_OPT_FLAG_OPTIONAL : Z := Z.shiftl 1 0.

(** [EvCmdOpt]; the sentinel that ends an array of options has the
    name NULL. *)
Record EvCmdOpt := {
  opt_name : option string;
  desc : option string;
  flags : Z;
  completer : option EvCmdOptCompl
}.

(** [EvCmd]. *)
Record EvCmd := {
  name : string;
  help_summary : string;
  func : EvCmdFunc;
  opts : option (list EvCmdOpt)
}.

Definition opt_sentinel : EvCmdOpt :=
  {| opt_name := None; desc := None; flags := 0; completer := None |}.

(** *** The file-static state: [commands], [el], [hist] *)
Record Session := {
  commands : list EvCmd;
  el : EditLine;
  hist : History
}.

Definition statics_of (st : Session) : Statics :=
  {| s_names := map name (commands st); s_hist := hist st |}.

Definition with_el (st : Session) (e : EditLine) : Session :=
  {| commands := commands st; el := e; hist := hist st |}.

Definition with_hist (st : Session) (h : History) : Session :=
  {| commands := commands st; el := el st; hist := h |}.

(** What the code does to the outside: text written with [g_print],
    a [g_critical] message, the call of a completer, the call of a
    handler. *)
Inductive event :=
| Print (s : string)
| Critical (s : string)
| CallCompleter (o : EvCmdOpt) (word : string) (pos : Z)
| CallHandler (c : EvCmd) (args : list string).

(** The return values of an editor function. *)
Inductive CC := CC_ERROR | CC_REDISPLAY | CC_REFRESH.

(** *** Lookup *)

(** [ev_cmds_get]: the first command of that name.  The index of the
    loop stays below [commands->len], as the [g_assert] of [ev_cmd]
    asks. *)
Fixpoint ev_cmds_get_loop (cmds : list EvCmd) (command : string) : option EvCmd :=
  match cmds with
  | [] => None
  | c :: rest =>
      if g_str_equal command (name c) then Some c
      else ev_cmds_get_loop rest command
  end.

Definition ev_cmds_get (cmds : list EvCmd) (command : option string) : option EvCmd :=
  match command with
  | None => None
  | Some command => ev_cmds_get_loop cmds command
  end.

(** The loop of [ev_cmd_get_opt]:
    [for (int i = 0; cmd->opts[i].name; i++) if (i == num) return &cmd->opts[i];] *)
Fixpoint ev_cmd_get_opt_loop (os : list EvCmdOpt) (i num : Z) : option EvCmdOpt :=
  match os with
  | [] => None
  | o :: rest =>
      match opt_name o with
      | None => None
      | Some _ => if i =? num then Some o else ev_cmd_get_opt_loop rest (i + 1) num
      end
  end.

(** [ev_cmd_get_opt (command, num)], [num] being a [guint]. *)
Definition ev_cmd_get_opt (cmds : list EvCmd) (command : option string) (num : Z)
    : option EvCmdOpt :=
  match ev_cmds_get cmds command with
  | None => None
  | Some cmd =>
      match opts cmd with
      | None => None
      | Some os =>
          match command with
          | None => None
          | Some _ => ev_cmd_get_opt_loop os 0 num
          end
      end
  end.

(** *** Completion *)

(** [help_command_opt_get_completion]. *)
Definition help_command_opt_get_completion : EvCmdOptCompl :=
  fun statics word pos =>
    Some (filter (fun n => strncmp n word (to_size_t pos) =? 0) (s_names statics)).

(** The loop of [complete_command], [word] and [pos] being those after
    [word++; pos--]. *)
Fixpoint complete_command_loop (cmds : list EvCmd) (word : string) (pos : Z) : list string :=
  match cmds with
  | [] => []
  | c :: rest =>
      if to_size_t pos >? strlen (name c) then complete_command_loop rest word pos
      else if strncmp (name c) word (to_size_t pos) =? 0
           then ("/" ++ name c) :: complete_command_loop rest word pos
           else complete_command_loop rest word pos
  end.

(** [complete_command (word, pos)]. *)
Definition complete_command (cmds : list EvCmd) (word : string) (pos : Z)
    : option (list string) :=
  if negb (starts_with_slash word) then None
  else Some (complete_command_loop cmds (skip 1 word) (pos - 1)).

(** [print_or_insert_completions (completions, pos)]. *)
Definition print_or_insert_completions (e : EditLine)
    (completions : option (list string)) (pos : Z)
    : result (CC * EditLine * list event) :=
  match completions with
  | None | Some [] => Ok (CC_ERROR, e, [])
  | Some [c] =>
      match from c pos with
      | None => Undefined
      | Some suffix =>
          match el_insertstr e suffix with
          | None => Ok (CC_ERROR, e, [])
          | Some e1 =>
              match el_insertstr e1 " " with
              | None => Ok (CC_REFRESH, e1, [])
              | Some e2 => Ok (CC_REFRESH, e2, [])
              end
          end
      end
  | Some cs =>
      Ok (CC_REDISPLAY, e,
          Print LF :: map (fun c => Print (c ++ " ")) cs ++ [Print LF])
  end.

(** [av[i]] for an [int] index. *)
Definition av_at (av : list string) (i : Z) : result string :=
  if i <? 0 then Undefined
  else match nth_error av (Z.to_nat i) with
       | Some s => Ok s
       | None => Undefined
       end.

(** [cc >= ac ? "" : av[cc]]. *)
Definition match_word (av : list string) (cc : Z) : result string :=
  if cc >=? Z.of_nat (List.length av) then Ok "" else av_at av cc.

(** [name = av[0]; name++]: one character is skipped; on an empty
    first word the pointer leaves the string. *)
Definition skip_marker (av : list string) : result string :=
  match av with
  | String _ rest :: _ => Ok rest
  | _ => Undefined
  end.

(** The body of [complete] once [tok_line] has returned 0 or more. *)
Definition complete_tokens (st : Session) (av : list string) (cc co : Z)
    : result (CC * Session * list event) :=
  let ac := Z.of_nat (List.length av) in
  if (ac <? 2) && (cc =? 0) then
    word <- match_word av cc ;;
    r <- print_or_insert_completions (el st)
           (complete_command (commands st) word co) co ;;
    let '(ret, e, evs) := r in Ok (ret, with_el st e, evs)
  else if (ac =? 0) || (cc =? 0) then Ok (CC_ERROR, st, [])
  else
    nm <- skip_marker av ;;
    match ev_cmd_get_opt (commands st) (Some nm) (to_guint (cc - 1)) with
    | None => Ok (CC_ERROR, st, [])
    | Some opt =>
        match completer opt with
        | None => Ok (CC_ERROR, st, [])
        | Some f =>
            word <- match_word av cc ;;
            r <- print_or_insert_completions (el st) (f (statics_of st) word co) co ;;
            let '(ret, e, evs) := r in
            Ok (ret, with_el st e, CallCompleter opt word co :: evs)
        end
    end.

(** [complete], the function bound to the Tab key. *)
Definition complete (st : Session) : result (CC * Session * list event) :=
  match tok_line (el_line (el st)) with
  | TokError => Ok (CC_ERROR, st, [Critical "Internal error parsing input"])
  | TokUndefined => Undefined
  | TokMore _ => complete_tokens st [] 0 0
  | TokOk av cc co => complete_tokens st av cc co
  end.

(** *** Dispatch *)

(** [reset]: the widget is torn down and created anew. *)
Definition reset (st : Session) : Session := with_el st el_init.

(** What [run_command] prints for the result of a handler. *)
Definition render (r : HandlerResult) : list event :=
  match h_out r with
  | Some out =>
      if 0 <? strlen out then [Print (LF ++ out ++ LF)] else []
  | None =>
      [Print (ESC ++ "[31m");
       match h_err r with
       | Some message => Print ("Command failed: " ++ message ++ LF)
       | None => Print ("Internal error - Command failed to set error" ++ LF)
       end;
       Print (ESC ++ "[39m")]
  end.

(** The loop of [run_command]; [cmd] is [av[0] + 1], [args] is
    [av[1 .. ac - 1]]. *)
Fixpoint run_command_loop (cmds : list EvCmd) (statics : Statics)
    (cmd : string) (args : list string) : list event :=
  match cmds with
  | [] => [Print (LF ++ "Unknown command '" ++ cmd ++ "'" ++ LF)]
  | c :: rest =>
      if g_str_equal cmd (name c)
      then CallHandler c args :: render (func c statics args)
      else run_command_loop rest statics cmd args
  end.

(** [run_command (av, ac)]. *)
Definition run_command (st : Session) (av : list string) : result (list event) :=
  cmd <- skip_marker av ;;
  Ok (run_command_loop (commands st) (statics_of st) cmd (tl av)).

Definition is_newline (c : ascii) : bool := Ascii.eqb c "010"%char.

(** [on_stdin_ready]; the widget of [st] is the one [el_gets] has just
    read into, and [buf] is its line. *)
Definition on_stdin_ready (st : Session) : result (Session * list event) :=
  let li := el_line (el st) in
  let buf := buffer li in
  match last_char buf with
  | None => Undefined
  | Some c =>
      if negb (is_newline c) then Ok (st, [])
      else
        match tok_line li with
        | TokError => Ok (reset st, [Critical "Internal error parsing input"])
        | TokUndefined => Undefined
        | r =>
            if strlen buf =? 0 then Ok (reset st, [])
            else
              let st1 :=
                if 1 <? strlen buf
                then with_hist st (history_enter (hist st) buf)
                else st in
              match r with
              | TokOk (a0 :: rest) _ _ =>
                  if starts_with_slash a0
                  then evs <- run_command st1 (a0 :: rest) ;; Ok (reset st1, evs)
                  else Ok (reset st1, [])
              | TokOk [] _ _ => Ok (reset st1, [])
              | _ => Undefined
              end
        end
  end.

(** *** Start *)

Definition HISTORY_SIZE : Z := 100.

(** [ev_prompt_init (commands_, cache_dir)].  [old] is the file-static
    state before the call ([None]: [commands] is still NULL); [file] is
    the content of the history file when it exists. *)
Definition ev_prompt_init (old : option Session) (commands_ : list EvCmd)
    (file : option (list string)) : result Session :=
  match old with
  | Some _ => Aborted
  | None =>
      let h := history_setunique (history_setsize history_init HISTORY_SIZE) true in
      let h := match file with
               | Some lines => history_load h lines
               | None => h
               end in
      Ok {| commands := commands_; el := el_init; hist := h |}
  end.

(** [g_ptr_array_add]. *)
Definition g_ptr_array_add {A : Type} (arr : list A) (x : A) : list A := arr ++ [x].

(** [for (int i = 0; table[i].name; i++) g_ptr_array_add (commands_, &table[i]);]
    over a static table that ends with a sentinel ([None]). *)
Fixpoint add_commands (table : list (option EvCmd)) (commands_ : list EvCmd) : list EvCmd :=
  match table with
  | Some c :: rest => add_commands rest (g_ptr_array_add commands_ c)
  | _ => commands_
  end.

Section Tables.

(** The handlers and the room completer, by the name of the C
    function: their bodies talk to the Matrix client and to the
    formatter and stay abstract. *)
Variable handler : string -> EvCmdFunc.
Variable opt_completer : string -> EvCmdOptCompl.

Definition help_opts : list EvCmdOpt :=
  [ {| opt_name := Some "command";
       desc := Some "The command to print help for";
       flags := EV_CMD_OPT_FLAG_OPTIONAL;
       completer := Some help_command_opt_get_completion |};
    opt_sentinel ].

Definition prompt_commands : list (option EvCmd) :=
  [ Some {| name := "help"; help_summary := "Show this help";
            func := handler "ev_prompt_print_help"; opts := Some help_opts |};
    Some {| name := "history"; help_summary := "Print command history";
            func := handler "ev_prompt_print_history"; opts := None |};
    Some {| name := "quit"; help_summary := "Quit the application";
            func := handler "ev_prompt_quit"; opts := None |};
    None ].

(** [ev_prompt_add_commands]. *)
Definition ev_prompt_add_commands (commands_ : list EvCmd) : list EvCmd :=
  add_commands prompt_commands commands_.

Definition room_opt (d : string) : EvCmdOpt :=
  {| opt_name := Some "room-id"; desc := Some d; flags := 0;
     completer := Some (opt_completer "matrix_command_opt_get_room_completion") |}.

Definition matrix_room_events_opts : list EvCmdOpt :=
  [ room_opt "The id of the room to show the events for"; opt_sentinel ].

Definition matrix_room_load_past_events_opts : list EvCmdOpt :=
  [ room_opt "The id of the room to load the events for"; opt_sentinel ].

Definition matrix_room_get_event_opts : list EvCmdOpt :=
  [ room_opt "The id of the room to get the event for";
    {| opt_name := Some "event-id"; desc := Some "The id of the event to get";
       flags := 0; completer := None |};
    opt_sentinel ].

Definition matrix_room_details_opts : list EvCmdOpt :=
  [ room_opt "The id of the room to get the details for"; opt_sentinel ].

Definition matrix_get_remove_pusher_opts : list EvCmdOpt :=
  [ {| opt_name := Some "number"; desc := Some "The number of the pusher";
       flags := 0; completer := None |};
    opt_sentinel ].

Definition matrix_commands : list (option EvCmd) :=
  [ Some {| name := "client-details";
            help_summary := "Print client information - no request is made to the server";
            func := handler "ev_matrix_client_details"; opts := None |};
    Some {| name := "rooms";
            help_summary := "List currently known joined rooms - no request is made to the server";
            func := handler "ev_matrix_list_rooms"; opts := None |};
    Some {| name := "room-details";
            help_summary := "Get details about a room - no request is made to the server";
            func := handler "ev_matrix_room_details";
            opts := Some matrix_room_details_opts |};
    Some {| name := "room-events"; help_summary := "List events in a room";
            func := handler "ev_matrix_room_events";
            opts := Some matrix_room_events_opts |};
    Some {| name := "room-load-past-events";
            help_summary := "Fetch past room events from the database";
            func := handler "ev_matrix_room_load_past_events";
            opts := Some matrix_room_load_past_events_opts |};
    Some {| name := "room-get-event";
            help_summary := "Get the given event from the server";
            func := handler "ev_matrix_room_get_event";
            opts := Some matrix_room_get_event_opts |};
    Some {| name := "get-pushers";
            help_summary := "Get the currently configured push servers from the server";
            func := handler "ev_matrix_get_pushers"; opts := None |};
    Some {| name := "remove-pusher";
            help_summary := "Remove the pusher with the given id";
            func := handler "ev_matrix_remove_pusher";
            opts := Some matrix_get_remove_pusher_opts |};
    None ].

(** [ev_matrix_add_commands]. *)
Definition ev_matrix_add_commands (commands_ : list EvCmd) : list EvCmd :=
  add_commands matrix_commands commands_.

(** [ev_application_startup], as far as the prompt goes: the array of
    commands that is built and handed to [ev_prompt_init].  [old] is
    the file-static state of the prompt before the call and
    [no_matrix] the debug flag [EV_DEBUG_FLAG_NO_MATRIX].
    [ev_matrix_init], which creates the Matrix object and starts to
    open its database, and the [startup] of the parent class are not
    part of the model: nothing is said here of whether they return. *)
Definition ev_application_startup (old : option Session) (no_matrix : bool)
    (file : option (list string)) : result Session :=
  let commands := [] in
  let commands := if no_matrix then commands else ev_matrix_add_commands commands in
  let commands := ev_prompt_add_commands commands in
  ev_prompt_init old commands file.

End Tables.

(** ** Further parts of the program *)

(** *** Formatted output ([g_string_append_printf], [g_strdup_printf]) *)

(** The largest [int]. *)
Definition INT_MAX : Z := 2 ^ 31 - 1.

(** Conversion of a value to [int] (an assignment such as
    [max_len = strlen (key)]), and the value of an [int] sum that
    leaves the range on a machine that wraps around. *)
Definition to_int (z : Z) : Z := (z + 2 ^ 31) mod 2 ^ 32 - 2 ^ 31.

Fixpoint spaces (n : nat) : string :=
  match n with
  | O => ""
  | S n' => String " " (spaces n')
  end.

(** The conversion [%*s]: the string is padded with blanks on the left
    up to the width; a negative width pads on the right up to its
    absolute value. *)
Definition printf_star_s (width : Z) (s : string) : string :=
  if width <? 0
  then s ++ spaces (Z.to_nat (- width) - String.length s)
  else spaces (Z.to_nat width - String.length s) ++ s.

(** What [g_string_append_printf] appends for the formatted [text]:
    the text, or nothing when it is longer than [INT_MAX], as a large
    field width makes it ([vasprintf] then fails with [EOVERFLOW] and
    [g_string_append_vprintf] appends only on success).  It is used
    where the width comes from an [int] that the caller chooses;
    elsewhere a formatted text is as long as the strings it is made
    of, and these are taken to fit. *)
Definition g_string_append_printf (text : string) : string :=
  if strlen text <=? INT_MAX then text else "".

(** The conversions [%d] and [%ld]. *)
Definition printf_d (n : Z) : string := NilZero.string_of_int (Z.to_int n).

(** The conversion [%4d]. *)
Definition printf_4d (n : Z) : string := printf_star_s 4 (printf_d n).

(** *** The formatter of key and value pairs ([ev-format-builder.c])

    A NULL key stands for an empty line. *)
Record EvFormatBuilder := {
  indent : Z;
  keys : list (option string);
  values : list (option string)
}.

(** [ev_format_builder_new]: the object is zero-filled and
    [ev_format_builder_init] creates the two arrays. *)
Definition ev_format_builder_new : EvFormatBuilder :=
  {| indent := 0; keys := []; values := [] |}.

Definition ev_format_builder_set_indent (self : EvFormatBuilder) (i : Z) : EvFormatBuilder :=
  {| indent := i; keys := keys self; values := values self |}.

Definition ev_format_builder_get_indent (self : EvFormatBuilder) : Z := indent self.

(** [ev_format_builder_add]; [g_assert (key)]. *)
Definition ev_format_builder_add (self : EvFormatBuilder) (key value : option string)
    : result EvFormatBuilder :=
  match key with
  | None => Aborted
  | Some _ =>
      Ok {| indent := indent self;
            keys := g_ptr_array_add (keys self) key;
            values := g_ptr_array_add (values self) value |}
  end.

(** [ev_format_builder_add_nonnull]. *)
Definition ev_format_builder_add_nonnull (self : EvFormatBuilder)
    (key value : option string) : result EvFormatBuilder :=
  match key with
  | None => Aborted
  | Some _ =>
      match value with
      | None => Ok self
      | Some _ =>
          Ok {| indent := indent self;
                keys := g_ptr_array_add (keys self) key;
                values := g_ptr_array_add (values self) value |}
      end
  end.

(** [ev_format_builder_take]: as [ev_format_builder_add], the strings
    being handed over instead of copied. *)
Definition ev_format_builder_take (self : EvFormatBuilder) (key value : option string)
    : result EvFormatBuilder :=
  match key with
  | None => Aborted
  | Some _ =>
      Ok {| indent := indent self;
            keys := g_ptr_array_add (keys self) key;
            values := g_ptr_array_add (values self) value |}
  end.

(** [ev_format_builder_add_newline]. *)
Definition ev_format_builder_add_newline (self : EvFormatBuilder) : EvFormatBuilder :=
  {| indent := indent self;
     keys := g_ptr_array_add (keys self) None;
     values := g_ptr_array_add (values self) None |}.

(** The first loop of [ev_format_builder_end]:
    [if (strlen (key) > max_len) max_len = strlen (key);], the
    comparison being unsigned. *)
Fixpoint max_key_len (ks : list (option string)) (max_len : Z) : Z :=
  match ks with
  | [] => max_len
  | None :: rest => max_key_len rest max_len
  | Some key :: rest =>
      if strlen key >? to_size_t max_len
      then max_key_len rest (to_int (strlen key))
      else max_key_len rest max_len
  end.

(** The second loop: one line per entry, [value ?: ""]. *)
Fixpoint format_lines (max_len : Z) (ks vs : list (option string)) : string :=
  match ks, vs with
  | key :: ks', value :: vs' =>
      match key with
      | None => LF
      | Some k =>
          g_string_append_printf
            (printf_star_s max_len k ++ " : "
               ++ match value with Some v => v | None => "" end ++ LF)
      end ++ format_lines max_len ks' vs'
  | _, _ => ""
  end.

(** [ev_format_builder_end]; [g_assert (self->keys->len == self->values->len)].
    [max_len += self->indent] is a sum of two [int]s: it wraps around
    when it leaves the range. *)
Definition ev_format_builder_end (self : EvFormatBuilder) : result string :=
  if negb (Nat.eqb (List.length (keys self)) (List.length (values self)))
  then Aborted
  else
    let max_len := max_key_len (keys self) 0 in
    let max_len := to_int (max_len + indent self) in
    Ok (format_lines max_len (keys self) (values self)).

(** *** The handlers of the prompt *)

Definition INFO_INDENT : Z := 4.

Definition is_optional (o : EvCmdOpt) : bool :=
  negb (Z.land (flags o) EV_CMD_OPT_FLAG_OPTIONAL =? 0).

(** The first loop over the options in [ev_prompt_print_help]: the
    usage line. *)
Fixpoint usage_opts (os : list EvCmdOpt) : string :=
  match os with
  | [] => ""
  | o :: rest =>
      match opt_name o with
      | None => ""
      | Some n =>
          " " ++ (if is_optional o then "[" else "") ++ n
            ++ (if is_optional o then "]" else "") ++ usage_opts rest
      end
  end.

(** The second loop: the longest name of an option. *)
Fixpoint max_opt_len (os : list EvCmdOpt) (len : Z) : Z :=
  match os with
  | [] => len
  | o :: rest =>
      match opt_name o with
      | None => len
      | Some n =>
          if strlen n >? to_size_t len
          then max_opt_len rest (to_int (strlen n))
          else max_opt_len rest len
      end
  end.

(** The third loop: name and description of each option; [%s] of a
    description that is NULL is not defined. *)
Fixpoint opt_lines (os : list EvCmdOpt) (width : Z) : result string :=
  match os with
  | [] => Ok ""
  | o :: rest =>
      match opt_name o with
      | None => Ok ""
      | Some n =>
          match desc o with
          | None => Undefined
          | Some d =>
              lines <- opt_lines rest width ;;
              Ok (printf_star_s width n ++ " : " ++ d ++ LF ++ lines)
          end
      end
  end.

(** The loop of [ev_prompt_print_help] over [commands]. *)
Fixpoint add_summaries (cmds : list EvCmd) (builder : EvFormatBuilder)
    : result EvFormatBuilder :=
  match cmds with
  | [] => Ok builder
  | c :: rest =>
      b <- ev_format_builder_add builder (Some (name c)) (Some (help_summary c)) ;;
      add_summaries rest b
  end.

(** [ev_prompt_print_help (args, err)]; [cmds] is the file-static
    [commands].  The function always returns a buffer. *)
Definition ev_prompt_print_help (cmds : list EvCmd) (args : option (list string))
    : result string :=
  match args with
  | Some (nm :: _) =>
      match ev_cmds_get cmds (Some nm) with
      | None => Ok ("Unknown command " ++ nm ++ LF)
      | Some cmd =>
          let out := "  " ++ nm ++ " - " ++ help_summary cmd ++ LF ++ LF
                     ++ "  Usage:" ++ LF
                     ++ "    /" ++ nm in
          match opts cmd with
          | Some os =>
              lines <- opt_lines os (max_opt_len os 0 + 4) ;;
              Ok (out ++ usage_opts os ++ LF ++ lines ++ LF)
          | None => Ok (out ++ LF)
          end
      end
  | _ =>
      b <- add_summaries cmds (ev_format_builder_set_indent ev_format_builder_new INFO_INDENT) ;;
      ev_format_builder_end b
  end.

(** What [H_LAST] followed by [H_PREV] until -1 walks: the events from
    the oldest to the most recent. *)
Definition history_walk (h : History) : list HistEvent := rev (h_events h).

(** [ev_prompt_print_history]: ["%4d %s"] for every event. *)
Definition ev_prompt_print_history : EvCmdFunc :=
  fun statics _ =>
    {| h_out := Some (String.concat ""
                        (map (fun e => printf_4d (num e) ++ " " ++ str e)
                             (history_walk (s_hist statics))));
       h_err := None |}.

(** [ev_prompt_quit]: the buffer is empty; [ev_quit ()] releases the
    application, outside the prompt. *)
Definition ev_prompt_quit : EvCmdFunc :=
  fun _ _ => {| h_out := Some ""; h_err := None |}.

(** [H_SAVE]: the events are written from the oldest to the most
    recent, one per line of the file. *)
Definition history_save (h : History) : list string := rev (h_strs h).

(** [ev_prompt_destroy (cache_dir)]: the history file that is written
    and the file-static state afterwards ([commands] is NULL again).
    The creation of the directory is outside the model. *)
Definition ev_prompt_destroy (st : Session) : list string * option Session :=
  (history_save (hist st), None).

(** *** The commands of the Matrix client ([ev-matrix.c])

    The rooms and the pushers are objects of libcmatrix; the model
    holds what the program reads of them. *)

(** A room: [cm_room_get_id]. *)
Record CmRoom := { cm_room_get_id : string }.

(** [matrix_command_opt_get_room_completion]; [joined_rooms] is the
    file-static list, NULL until the client is set up. *)
Definition matrix_command_opt_get_room_completion (joined_rooms : option (list CmRoom))
    (word : string) (pos : Z) : option (list string) :=
  match joined_rooms with
  | None => None
  | Some rooms =>
      Some (map cm_room_get_id
              (filter (fun room => strncmp (cm_room_get_id room) word (to_size_t pos) =? 0)
                      rooms))
  end.

(** [get_joined_room_by_id]; [g_list_model_get_n_items (NULL)] is 0. *)
Definition get_joined_room_by_id (joined_rooms : option (list CmRoom))
    (room_id : string) : option CmRoom :=
  match joined_rooms with
  | None => None
  | Some rooms => find (fun r => g_str_equal room_id (cm_room_get_id r)) rooms
  end.

Definition LLONG_MAX : Z := 2 ^ 63 - 1.
Definition LLONG_MIN : Z := - 2 ^ 63.

(** [isspace] in the C locale. *)
Definition isspace (c : ascii) : bool :=
  (code c =? 32) || ((9 <=? code c) && (code c <=? 13)).

Fixpoint skip_spaces (s : string) : string :=
  match s with
  | String c rest => if isspace c then skip_spaces rest else s
  | EmptyString => s
  end.

Definition digit_value (c : ascii) : option Z :=
  if (48 <=? code c) && (code c <=? 57) then Some (code c - 48) else None.

(** The digits at the head of a string: their value, and whether
    there is one. *)
Fixpoint read_digits (s : string) (acc : Z) (any : bool) : Z * bool :=
  match s with
  | String c rest =>
      match digit_value c with
      | Some d => read_digits rest (10 * acc + d) true
      | None => (acc, any)
      end
  | EmptyString => (acc, any)
  end.

(** [strtoll (nptr, &endptr, 10)]: the value, and whether [endptr]
    has moved off [nptr].  Blanks are skipped, a sign is read, the
    digits are converted, and a value out of range becomes
    [LLONG_MAX] or [LLONG_MIN]. *)
Definition strtoll (nptr : string) : Z * bool :=
  let s := skip_spaces nptr in
  let '(negative, digits) :=
    match s with
    | String "-" rest => (true, rest)
    | String "+" rest => (false, rest)
    | _ => (false, s)
    end in
  let '(v, any) := read_digits digits 0 false in
  if any
  then (Z.max LLONG_MIN (Z.min LLONG_MAX (if negative then - v else v)), true)
  else (0, false).

(** A handler's failure: no buffer, and the message of the error. *)
Definition failure (message : string) : HandlerResult :=
  {| h_out := None; h_err := Some message |}.

Section RemovePusher.

(** The pushers and [cm_client_remove_pusher_sync], which returns
    whether it succeeded and the message of the error it has set. *)
Variable CmPusher : Type.
Variable cm_client_remove_pusher_sync : CmPusher -> bool * option string.

(** [ev_matrix_remove_pusher (args, err)]: what it returns, and the
    pusher it has asked the library to remove.  [client] tells whether
    the file-static client exists, [pushers] is the file-static array
    that [/get-pushers] fills.  The test [if (errno)] follows
    [errno = 0] and is never taken. *)
Definition ev_matrix_remove_pusher (client : bool) (pushers : option (list CmPusher))
    (args : list string) : result (HandlerResult * option CmPusher) :=
  if negb client then Aborted
  else
    match args with
    | [] => Ok (failure "Not enough arguments", None)
    | arg :: _ =>
        let '(pusher_id, converted) := strtoll arg in
        if negb converted
        then Ok (failure ("No numbers found in '" ++ arg ++ "'"), None)
        else
          match pushers with
          | None => Ok (failure "No pushers - did you run /get-pushers ?", None)
          | Some ps =>
              if (pusher_id >=? Z.of_nat (List.length ps)) || (pusher_id <? 0)
              then Ok (failure ("Invalid pusher id '" ++ printf_d pusher_id ++ "'"), None)
              else
                match nth_error ps (Z.to_nat pusher_id) with
                | None => Undefined
                | Some pusher =>
                    match cm_client_remove_pusher_sync pusher with
                    | (true, _) =>
                        Ok ({| h_out := Some ("Removed pusher " ++ printf_d pusher_id);
                               h_err := None |}, Some pusher)
                    | (false, Some message) =>
                        Ok (failure ("Failed to remove pusher: " ++ message), Some pusher)
                    | (false, None) => Undefined
                    end
                end
          end
    end.

End RemovePusher.

(** *** Notions for the formatter *)

(** The length of the longest key. *)
Fixpoint longest_key (ks : list (option string)) : nat :=
  match ks with
  | [] => 0
  | None :: rest => longest_key rest
  | Some k :: rest => Nat.max (String.length k) (longest_key rest)
  end.

(** The line of an entry when the keys end in column [w]. *)
Definition entry_line (w : nat) (entry : option string * option string) : string :=
  match entry with
  | (None, _) => LF
  | (Some k, value) =>
      spaces (w - String.length k) ++ k ++ " : "
        ++ match value with Some v => v | None => "" end ++ LF
  end.

(** The calls a user of the formatter can make before
    [ev_format_builder_end]. *)
Inductive builder_call :=
| SetIndent (i : Z)
| Add (key value : option string)
| AddNonnull (key value : option string)
| Take (key value : option string)
| AddNewline.

Definition run_call (b : EvFormatBuilder) (c : builder_call) : result EvFormatBuilder :=
  match c with
  | SetIndent i => Ok (ev_format_builder_set_indent b i)
  | Add key value => ev_format_builder_add b key value
  | AddNonnull key value => ev_format_builder_add_nonnull b key value
  | Take key value => ev_format_builder_take b key value
  | AddNewline => Ok (ev_format_builder_add_newline b)
  end.

Fixpoint run_calls (b : EvFormatBuilder) (cs : list builder_call) : result EvFormatBuilder :=
  match cs with
  | [] => Ok b
  | c :: rest => b' <- run_call b c ;; run_calls b' rest
  end.

(** The call passes a key, as the assertions ask. *)
Definition has_key (c : builder_call) : Prop :=
  match c with
  | Add key _ | AddNonnull key _ | Take key _ => key <> None
  | _ => True
  end.

(** The length of the longest name of a command. *)
Fixpoint longest_name (cmds : list EvCmd) : nat :=
  match cmds with
  | [] => 0
  | c :: rest => Nat.max (String.length (name c)) (longest_name rest)
  end.

(** The line of a command in the overview of [help]. *)
Definition summary_line (w : nat) (c : EvCmd) : string :=
  spaces (w - String.length (name c)) ++ name c ++ " : " ++ help_summary c ++ LF.

(** Every option of every command has a description. *)
Definition described (cmds : list EvCmd) : Prop :=
  forall c os o,
    In c cmds -> opts c = Some os -> In o os -> opt_name o <> None -> desc o <> None.

(** A C string holds no NUL character. *)
Fixpoint nul_free (s : string) : bool :=
  match s with
  | EmptyString => true
  | String c rest => negb (Ascii.eqb c "000"%char) && nul_free rest
  end.

(** No two neighbours of a list are the same string. *)
Fixpoint no_adjacent_dup (l : list string) : Prop :=
  match l with
  | a :: rest =>
      match rest with
      | b :: _ => a <> b
      | [] => True
      end /\ no_adjacent_dup rest
  | [] => True
  end.

(** The line of an event in the listing of [history]. *)
Definition history_line (e : HistEvent) : string :=
  printf_4d (num e) ++ " " ++ str e.

(** Every character of a string passes a test. *)
Fixpoint all_chars (test : ascii -> bool) (s : string) : bool :=
  match s with
  | EmptyString => true
  | String c rest => test c && all_chars test rest
  end.

(** A character that neither quotes nor ends the line, and one that
    does not end a double quote. *)
Definition unquoted (c : ascii) : bool :=
  negb (Ascii.eqb c "'"%char || Ascii.eqb c "034"%char || Ascii.eqb c "\"%char
        || Ascii.eqb c "010"%char).

Definition inside_double_quote (c : ascii) : bool :=
  negb (Ascii.eqb c "034"%char || Ascii.eqb c "\"%char).

(** ** Sessions

    Between two calls of [on_stdin_ready] the widget edits its line on
    its own; the Tab key runs [complete]; every readable byte on the
    terminal runs [on_stdin_ready]. *)
Inductive reachable : Session -> Prop :=
| reach_init : forall commands_ file st,
    ev_prompt_init None commands_ file = Ok st -> reachable st
| reach_edit : forall st e,
    reachable st -> reachable (with_el st e)
| reach_complete : forall st ret st' evs,
    reachable st -> complete st = Ok (ret, st', evs) -> reachable st'
| reach_line : forall st st' evs,
    reachable st -> on_stdin_ready st = Ok (st', evs) -> reachable st'.

(** A line the user has submitted: its last character is the newline. *)
Definition submitted (buf : string) : Prop := last_char buf = Some "010"%char.

(** The calls of completers and of handlers among some events. *)
Fixpoint completer_calls (evs : list event) : list (EvCmdOpt * string * Z) :=
  match evs with
  | [] => []
  | CallCompleter o w p :: rest => (o, w, p) :: completer_calls rest
  | _ :: rest => completer_calls rest
  end.

Fixpoint handler_calls (evs : list event) : list (EvCmd * list string) :=
  match evs with
  | [] => []
  | CallHandler c args :: rest => (c, args) :: handler_calls rest
  | _ :: rest => handler_calls rest
  end.

(** The options of a command in front of the sentinel. *)
Fixpoint named_opts (os : list EvCmdOpt) : list EvCmdOpt :=
  match os with
  | [] => []
  | o :: rest =>
      match opt_name o with
      | None => []
      | Some _ => o :: named_opts rest
      end
  end.

(** The entries of a static table in front of the sentinel. *)
Fixpoint table_entries (table : list (option EvCmd)) : list EvCmd :=
  match table with
  | Some c :: rest => c :: table_entries rest
  | _ => []
  end.

(** The option at a position, in the words of the design: the first
    token resolves to a command (the first of that name in registration
    order), and the option at the position is located among its
    options. *)
Definition option_at (cmds : list EvCmd) (nm : string) (i : nat) : option EvCmdOpt :=
  match find (fun c => String.eqb nm (name c)) cmds with
  | None => None
  | Some cmd =>
      match opts cmd with
      | None => None
      | Some os => nth_error (named_opts os) i
      end
  end.

(** The candidates of a command-name completion, in the words of the
    design: every registered command whose name has the typed text as
    a prefix, as a full token (marker and name), in registration
    order. *)
Definition command_candidates (cmds : list EvCmd) (typed : string) : list string :=
  map (fun c => "/" ++ name c) (filter (fun c => prefix typed (name c)) cmds).

(** The line with [s] put in at the cursor, the cursor behind it. *)
Definition insert_at (li : LineInfo) (s : string) : LineInfo :=
  {| buffer := take (cursor li) (buffer li) ++ s ++ skip (cursor li) (buffer li);
     cursor := (cursor li + String.length s)%nat |}.

(** The cursor of a widget lies inside its line. *)
Definition cursor_in_line (e : EditLine) : Prop :=
  (cursor (el_line e) <= String.length (buffer (el_line e)))%nat.

(** The set-up of [ev_prompt_init] and what it keeps. *)
Definition configured (h : History) : Prop :=
  h_max h = HISTORY_SIZE /\ h_unique h = true
  /\ (List.length (h_events h) <= Z.to_nat HISTORY_SIZE)%nat.

(** The session once the line is entered into the history, which
    happens for a line of more than one character. *)
Definition recorded (s : Session) : Session :=
  if 1 <? strlen (buffer (el_line (el s)))
  then with_hist s (history_enter (hist s) (buffer (el_line (el s))))
  else s.

(** A character the tokenizer takes as it is: no quote, no backslash,
    no separator. *)
Definition plain (c : ascii) : bool :=
  negb (Ascii.eqb c "'"%char || Ascii.eqb c "034"%char || Ascii.eqb c "\"%char
        || is_ifs c).

Fixpoint plain_word (s : string) : bool :=
  match s with
  | EmptyString => true
  | String c rest => plain c && plain_word rest
  end.

(** The session after the user has typed [line] (newline included)
    into the widget and [on_stdin_ready] has run. *)
Definition enter_line (st : Session) (line : string) : Session :=
  match on_stdin_ready
          (with_el st {| el_line := {| buffer := line;
                                       cursor := Nat.pred (String.length line) |} |}) with
  | Ok (st', _) => st'
  | _ => st
  end.

(** ** Sample data for the concrete runs

    Handlers that return an empty buffer, and the room completer of
    the scenario of the design (one room, ["!abc:example.org"]). *)

Definition demo_handler : string -> EvCmdFunc :=
  fun _ _ _ => {| h_out := Some ""; h_err := None |}.

Definition demo_completer : string -> EvCmdOptCompl :=
  fun _ _ _ _ => Some ["!abc:example.org"].

(** The registry of a start without Matrix (three commands) and of a
    full start (eleven commands). *)
Definition prompt_only : list EvCmd := ev_prompt_add_commands demo_handler [].

Definition full_registry : list EvCmd :=
  ev_prompt_add_commands demo_handler
    (ev_matrix_add_commands demo_handler demo_completer []).

(** The history as [ev_prompt_init] sets it up when there is no
    history file. *)
Definition fresh_hist : History :=
  history_setunique (history_setsize history_init HISTORY_SIZE) true.

(** A session in which the user has typed [line] and the cursor is
    [cur] characters into it. *)
Definition typing (cmds : list EvCmd) (h : History) (line : string) (cur : nat) : Session :=
  {| commands := cmds;
     el := {| el_line := {| buffer := line; cursor := cur |} |};
     hist := h |}.

(** A start without Matrix and without a history file. *)
Definition started : Session :=
  {| commands := prompt_only; el := el_init; hist := fresh_hist |}.

(** A start with a history file of 100 lines, the oldest first; the
    history is then at its capacity. *)
Definition saved_line (n : nat) : string :=
  "/room-events " ++ printf_d (Z.of_nat n) ++ LF.

Definition saved_lines : list string := map saved_line (seq 1 100).

Definition restarted : Session :=
  {| commands := prompt_only; el := el_init;
     hist := history_load fresh_hist saved_lines |}.

(** The two handlers of [ev-matrix.c] that return without a Matrix
    client: [ev_matrix_client_details] returns NULL and sets no error,
    [ev_matrix_list_rooms] reports that no room is joined.  The others
    are as in [demo_handler]. *)
Definition offline_handler : string -> EvCmdFunc :=
  fun symbol _ _ =>
    if String.eqb symbol "ev_matrix_client_details"
    then {| h_out := None; h_err := None |}
    else if String.eqb symbol "ev_matrix_list_rooms"
         then {| h_out := Some ("No joined rooms" ++ LF); h_err := None |}
         else {| h_out := Some ""; h_err := None |}.

Definition offline_registry : list EvCmd :=
  ev_prompt_add_commands offline_handler
    (ev_matrix_add_commands offline_handler demo_completer []).

(** The handlers of the prompt that are modelled, the others as in
    [demo_handler], and the registry of a start without Matrix with
    them. *)
Definition prompt_handler : string -> EvCmdFunc :=
  fun symbol =>
    if String.eqb symbol "ev_prompt_print_history" then ev_prompt_print_history
    else if String.eqb symbol "ev_prompt_quit" then ev_prompt_quit
    else demo_handler symbol.

Definition prompt_registry : list EvCmd := ev_prompt_add_commands prompt_handler [].

(** ** Facts on strings *)

Section StringFacts.

Lemma take_skip (n : nat) (s : string) : take n s ++ skip n s = s.
Proof.
  revert s; induction n as [|n IH]; intros [|c t]; simpl; try reflexivity.
  now rewrite IH.
Qed.

Lemma length_take (n : nat) (s : string) :
  (n <= String.length s)%nat -> String.length (take n s) = n.
Proof.
  revert s; induction n as [|n IH]; intros [|c t]; simpl; intros H;
    try reflexivity; try lia.
  rewrite IH; lia.
Qed.

Lemma take_app (a b : string) : take (String.length a) (a ++ b) = a.
Proof. induction a as [|c a IH]; simpl; [now destruct b | now rewrite IH]. Qed.

Lemma skip_app (a b : string) : skip (String.length a) (a ++ b) = b.
Proof. induction a as [|c a IH]; simpl; [now destruct b | exact IH]. Qed.

Lemma length_app (a b : string) :
  String.length (a ++ b) = (String.length a + String.length b)%nat.
Proof. induction a as [|c a IH]; simpl; [reflexivity | now rewrite IH]. Qed.

Lemma app_assoc_s (a b c : string) : (a ++ b) ++ c = a ++ (b ++ c).
Proof. induction a as [|x a IH]; simpl; [reflexivity | now rewrite IH]. Qed.

Lemma length_skip (n : nat) (s : string) :
  String.length (skip n s) = (String.length s - n)%nat.
Proof.
  revert s; induction n as [|n IH]; intros [|c t]; simpl; try reflexivity.
  apply IH.
Qed.

Lemma code_inj (a b : ascii) : code a = code b -> a = b.
Proof.
  unfold code; intros H. apply Nat2Z.inj in H.
  rewrite <- (ascii_nat_embedding a), <- (ascii_nat_embedding b).
  now rewrite H.
Qed.

Lemma strncmp_zero (s1 s2 : string) (n : Z) : n <= 0 -> strncmp s1 s2 n = 0.
Proof.
  intros H. destruct s1; simpl; destruct (Z.leb_spec n 0); try reflexivity; lia.
Qed.

(** The test of [complete_command] is a prefix test: the name is at
    least [n] long and agrees with the word on [n] characters exactly
    when the first [n] characters of the word are a prefix of the
    name. *)
Lemma strncmp_prefix (n : nat) : forall nm word : string,
  (n <= String.length word)%nat ->
  negb (Z.of_nat n >? strlen nm) && (strncmp nm word (Z.of_nat n) =? 0)
  = prefix (take n word) nm.
Proof.
  unfold strlen.
  induction n as [|n IH]; intros nm word Hn.
  - rewrite strncmp_zero by reflexivity.
    destruct (Z.gtb_spec 0 (Z.of_nat (String.length nm))); [lia|].
    now destruct word, nm.
  - destruct word as [|c2 w]; simpl in Hn; [lia|].
    destruct nm as [|c1 t1].
    + simpl. reflexivity.
    + specialize (IH t1 w ltac:(lia)).
      cbn [take prefix String.length].
      assert (Hg : (Z.of_nat (S n) >? Z.of_nat (S (String.length t1)))
                   = (Z.of_nat n >? Z.of_nat (String.length t1))).
      { destruct (Z.gtb_spec (Z.of_nat (S n)) (Z.of_nat (S (String.length t1))));
          destruct (Z.gtb_spec (Z.of_nat n) (Z.of_nat (String.length t1)));
          try reflexivity; lia. }
      rewrite Hg.
      cbn [strncmp].
      destruct (Z.leb_spec (Z.of_nat (S n)) 0); [lia|].
      replace (Z.of_nat (S n) - 1) with (Z.of_nat n) by lia.
      destruct (ascii_dec c2 c1) as [->|Hne].
      * rewrite Ascii.eqb_refl. exact IH.
      * destruct (Ascii.eqb_spec c1 c2) as [->|Hne']; [congruence|].
        assert (code c1 - code c2 <> 0).
        { intros E. apply Hne'. apply code_inj. lia. }
        destruct (Z.eqb_spec (code c1 - code c2) 0); [lia|].
        apply andb_false_r.
Qed.

Lemma starts_with_slash_spec (w : string) :
  starts_with_slash w = true <-> exists rest, w = String "/"%char rest.
Proof.
  unfold starts_with_slash. destruct w as [|c t]; simpl.
  - split; [discriminate | intros [r H]; discriminate].
  - split.
    + intros H. apply Ascii.eqb_eq in H. subst. now exists t.
    + intros [r H]. injection H as -> _. apply Ascii.eqb_refl.
Qed.

End StringFacts.

(** ** Facts on the tokenizer *)

Section TokenizerFacts.

Lemma append_empty (s : string) : s ++ "" = s.
Proof. induction s as [|c s IH]; simpl; [reflexivity | now rewrite IH]. Qed.

Lemma tok_char_plain (t : Tokenizer) (c : ascii) :
  plain c = true -> t_quote t = Q_none ->
  tok_char t c = inl (add_char t c Q_none (t_keep t)).
Proof.
  unfold plain, is_ifs. intros Hp Hq. apply negb_true_iff in Hp.
  repeat match goal with
         | H : (_ || _) = false |- _ => apply orb_false_iff in H; destruct H
         end.
  unfold tok_char, is_ifs. rewrite Hq.
  repeat match goal with H : Ascii.eqb _ _ = false |- _ => rewrite H; clear H end.
  reflexivity.
Qed.

(** The scan of plain characters only adds them to the word; the
    cursor, when it is on one of them, is recorded with its offset in
    the word. *)
Lemma tok_scan_plain (s : string) : forall (w : string) (cur : option (Z * Z)) (cursor i : nat),
  plain_word s = true ->
  tok_scan {| t_argv := []; t_word := w; t_quote := Q_none;
              t_keep := false; t_eat := false |} cur cursor i s
  = tok_out {| t_argv := []; t_word := w ++ s; t_quote := Q_none;
               t_keep := false; t_eat := false |}
      (if (i <=? cursor)%nat && (cursor <? i + String.length s)%nat
       then Some (0, strlen w + Z.of_nat (cursor - i)) else cur).
Proof.
  induction s as [|c r IH]; intros w cur cursor i Hp.
  - cbn [tok_scan t_quote t_eat]. rewrite append_empty.
    replace ((i <=? cursor)%nat && (cursor <? i + String.length "")%nat) with false;
      [reflexivity|].
    cbn [String.length].
    destruct (Nat.leb_spec i cursor); destruct (Nat.ltb_spec cursor (i + 0));
      try reflexivity; lia.
  - cbn [plain_word] in Hp. apply andb_prop in Hp as [Hc Hr].
    cbn [tok_scan]. rewrite tok_char_plain by (assumption || reflexivity).
    unfold add_char. cbn [t_argv t_word t_keep].
    rewrite IH by exact Hr.
    rewrite app_assoc_s. cbn [append]. f_equal.
    unfold strlen. rewrite length_app. cbn [String.length].
    destruct (Nat.eqb_spec i cursor) as [->|Hne].
    + replace (cursor - cursor)%nat with 0%nat by lia.
      destruct (Nat.leb_spec (S cursor) cursor); [lia|].
      destruct (Nat.leb_spec cursor cursor); [|lia].
      destruct (Nat.ltb_spec cursor (cursor + S (String.length r))); [|lia].
      cbn [andb]. do 2 f_equal. lia.
    + destruct (Nat.leb_spec (S i) cursor); destruct (Nat.leb_spec i cursor);
        try lia; cbn [andb]; [|reflexivity].
      destruct (Nat.ltb_spec cursor (S i + String.length r));
        destruct (Nat.ltb_spec cursor (i + S (String.length r))); try lia;
        [|reflexivity].
      do 2 f_equal. lia.
Qed.

(** A line that is one word of plain characters is one token, and the
    cursor is reported in it at its place. *)
Lemma tok_line_one_word (w : string) (cur : nat) :
  plain_word w = true -> w <> "" -> (cur <= String.length w)%nat ->
  tok_line {| buffer := w; cursor := cur |} = TokOk [w] 0 (Z.of_nat cur).
Proof.
  intros Hp Hne Hcur. unfold tok_line, tok_reset. cbn [buffer cursor].
  rewrite tok_scan_plain by exact Hp.
  unfold tok_out, tok_finish. cbn [t_argv t_word t_keep append List.length].
  assert (He : (w =? "")%string = false) by now apply String.eqb_neq.
  rewrite He. cbn [negb orb t_argv app].
  destruct (Nat.ltb_spec cur (0 + String.length w)); cbn [Nat.leb andb].
  - do 2 f_equal. unfold strlen. cbn [String.length]. lia.
  - unfold strlen. cbn [Z.of_nat]. f_equal. lia.
Qed.

End TokenizerFacts.

(** ** Facts on the lookup *)

Section LookupFacts.

Lemma ev_cmds_get_loop_find (cmds : list EvCmd) (nm : string) :
  ev_cmds_get_loop cmds nm = find (fun c => String.eqb nm (name c)) cmds.
Proof.
  induction cmds as [|c rest IH]; simpl; [reflexivity|].
  unfold g_str_equal. now rewrite IH.
Qed.

Lemma ev_cmd_get_opt_loop_nth (os : list EvCmdOpt) : forall (i : Z) (k : nat),
  ev_cmd_get_opt_loop os i (i + Z.of_nat k) = nth_error (named_opts os) k.
Proof.
  induction os as [|o rest IH]; intros i k; simpl.
  - now destruct k.
  - destruct (opt_name o); [|now destruct k].
    destruct k as [|k].
    + replace (i + Z.of_nat 0) with i by lia. now rewrite Z.eqb_refl.
    + destruct (Z.eqb_spec i (i + Z.of_nat (S k))); [lia|].
      replace (i + Z.of_nat (S k)) with ((i + 1) + Z.of_nat k) by lia.
      apply IH.
Qed.

(** [ev_cmd_get_opt] locates the option the design describes. *)
Lemma ev_cmd_get_opt_option_at (cmds : list EvCmd) (nm : string) (k : nat) :
  ev_cmd_get_opt cmds (Some nm) (Z.of_nat k) = option_at cmds nm k.
Proof.
  unfold ev_cmd_get_opt, option_at, ev_cmds_get.
  rewrite ev_cmds_get_loop_find.
  destruct (find _ cmds) as [cmd|]; [|reflexivity].
  destruct (opts cmd) as [os|]; [|reflexivity].
  apply (ev_cmd_get_opt_loop_nth os 0 k).
Qed.

Lemma complete_command_loop_filter (cmds : list EvCmd) (word : string) (n : nat) :
  (n <= String.length word)%nat ->
  Z.of_nat n < 2 ^ 64 ->
  complete_command_loop cmds word (Z.of_nat n)
  = command_candidates cmds (take n word).
Proof.
  intros Hn Hsmall. unfold command_candidates.
  assert (Hs : to_size_t (Z.of_nat n) = Z.of_nat n).
  { unfold to_size_t. apply Z.mod_small. lia. }
  induction cmds as [|c rest IH]; simpl; [reflexivity|].
  rewrite Hs, <- (strncmp_prefix n (name c) word Hn), IH.
  destruct (Z.of_nat n >? strlen (name c)); simpl; [reflexivity|].
  destruct (strncmp (name c) word (Z.of_nat n) =? 0); reflexivity.
Qed.

Lemma command_candidates_empty (cmds : list EvCmd) :
  command_candidates cmds "" = map (fun c => "/" ++ name c) cmds.
Proof.
  unfold command_candidates. f_equal.
  induction cmds as [|c l IH]; [reflexivity|].
  cbn [filter]. replace (prefix "" (name c)) with true by now destruct (name c).
  now rewrite IH.
Qed.

End LookupFacts.

(** ** Completion of a command name *)

(** The claim fails with the cursor in front of the marker.  On the
    line ["/"] with the cursor at its start, [tok_line] reports the
    cursor in the one token, at offset 0.  Nothing is typed after the
    marker, and the claim makes every command a candidate.
    [complete_command] is written for a cursor behind the marker
    ([word++; pos--; /* skip '/' */]): here [pos - 1] is -1, the
    comparison [pos > strlen (name)] is unsigned and passes over every
    name, and there is no candidate.  One position to the right the
    three commands are offered. *)
Lemma completion_in_front_of_marker :
  let st := typing prompt_only fresh_hist "/" 0 in
  tok_line (el_line (el st)) = TokOk ["/"] 0 0
  /\ command_candidates (commands st) "" = ["/help"; "/history"; "/quit"]
  /\ complete_command (commands st) "/" 0 = Some []
  /\ complete st = Ok (CC_ERROR, st, [])
  /\ complete_command (commands st) "/" 1 = Some ["/help"; "/history"; "/quit"].
Proof. repeat split. Qed.

Section CommandCompletion.

Variable st : Session.

(** C1, amended.  On a line that is one token beginning with the
    marker, with the cursor [co] characters into the token and behind
    the marker ([1 <= co]), [complete_command] returns, and [complete]
    renders, exactly the registered commands whose names have the text
    typed between the marker and the cursor as a prefix; only that
    many characters are compared.  With nothing typed between the
    marker and the cursor every registered command is a candidate. *)
Theorem complete_command_name (rest : string) (co : Z) :
  tok_line (el_line (el st)) = TokOk [String "/" rest] 0 co ->
  1 <= co <= strlen (String "/" rest) ->
  co <= INT_MAX ->
  let typed := take (Z.to_nat (co - 1)) rest in
  complete_command (commands st) (String "/" rest) co
    = Some (command_candidates (commands st) typed)
  /\ complete st
     = (r <- print_or_insert_completions (el st)
               (Some (command_candidates (commands st) typed)) co ;;
        let '(ret, e, evs) := r in Ok (ret, with_el st e, evs))
  /\ (co = 1 ->
      command_candidates (commands st) typed
      = map (fun c => "/" ++ name c) (commands st)).
Proof.
  intros Htok [Hlo Hhi] Hint typed.
  assert (Hcc : complete_command (commands st) (String "/" rest) co
                = Some (command_candidates (commands st) typed)).
  { unfold complete_command. cbn [starts_with_slash first_char negb skip].
    rewrite Ascii.eqb_refl. cbn [negb]. f_equal.
    replace (co - 1) with (Z.of_nat (Z.to_nat (co - 1))) at 1 by lia.
    apply complete_command_loop_filter.
    - unfold strlen in Hhi. cbn [String.length] in Hhi. lia.
    - unfold INT_MAX in Hint. lia. }
  split; [exact Hcc|]. split.
  - unfold complete. rewrite Htok. unfold complete_tokens.
    cbn [List.length Z.of_nat]. cbn [Z.ltb Z.eqb Z.compare Pos.compare Pos.compare_cont andb].
    cbn [match_word av_at List.length Z.of_nat Z.geb Z.compare Z.ltb
         Z.to_nat nth_error bind].
    rewrite Hcc. reflexivity.
  - intros ->. subst typed. cbn [Z.sub Z.add Z.opp Z.pos_sub Z.to_nat take].
    apply command_candidates_empty.
Qed.

End CommandCompletion.

Lemma complete_command_name_witness :
  complete_command prompt_only "/he" 3 = Some ["/help"].
Proof.
  refine (proj1 (complete_command_name (typing prompt_only fresh_hist "/he" 3)
                   "he" 3 eq_refl _ _)).
  - unfold strlen; simpl; lia.
  - unfold INT_MAX; lia.
Defined.

(** The same in front of a longer token. *)
Example complete_command_cursor_at_start :
  complete_command prompt_only "/he" 0 = Some [].
Proof. reflexivity. Qed.

(** The first scenario of the design: ["/room-d"] and Tab. *)
Example complete_room_d :
  exists st' : Session,
    complete (typing full_registry fresh_hist "/room-d" 7) = Ok (CC_REFRESH, st', [])
    /\ el_line (el st') = {| buffer := "/room-details "; cursor := 14 |}.
Proof. eexists; split; reflexivity. Qed.

(** ** Rendering of the candidates *)

Section Rendering.

Lemma completer_calls_prints (cs : list string) :
  completer_calls (map (fun c => Print (c ++ " ")) cs ++ [Print LF]) = [].
Proof. induction cs as [|c cs IH]; simpl; [reflexivity | exact IH]. Qed.

Lemma handler_calls_prints (cs : list string) :
  handler_calls (map (fun c => Print (c ++ " ")) cs ++ [Print LF]) = [].
Proof. induction cs as [|c cs IH]; simpl; [reflexivity | exact IH]. Qed.

(** [print_or_insert_completions] invokes no callback. *)
Lemma print_or_insert_no_call (e : EditLine) (completions : option (list string))
    (pos : Z) (ret : CC) (e' : EditLine) (evs : list event) :
  print_or_insert_completions e completions pos = Ok (ret, e', evs) ->
  completer_calls evs = [] /\ handler_calls evs = [].
Proof.
  unfold print_or_insert_completions.
  destruct completions as [[|c [|c' cs]]|].
  - intros H; injection H as _ _ <-; now split.
  - destruct (from c pos) as [suffix|]; [|discriminate].
    destruct (el_insertstr e suffix) as [e1|].
    + destruct (el_insertstr e1 " "); intros H; injection H as _ _ <-; now split.
    + intros H; injection H as _ _ <-; now split.
  - intros H; injection H as _ _ <-. split.
    + cbn [completer_calls]. apply (completer_calls_prints (c :: c' :: cs)).
    + cbn [handler_calls]. apply (handler_calls_prints (c :: c' :: cs)).
  - intros H; injection H as _ _ <-; now split.
Qed.

End Rendering.

(** ** Completion of an option *)

Section OptionCompletion.

Variable st : Session.

(** C2.  With the cursor in token [cc >= 1] of a line whose first token
    is the marker followed by [nm]: when [nm] resolves to a command
    that has an option at position [cc - 1] with a completer, that
    completer and no other is invoked, once, with the partial word and
    the offset of the cursor in it, and what it returns goes to the
    rendering as it is; when the command does not resolve, or has no
    option at that position, or the option has no completer, nothing
    is invoked and there are no candidates ([CC_ERROR], no output, the
    line as it was). *)
Theorem complete_option (nm : string) (rest : list string) (cc co : Z) :
  tok_line (el_line (el st)) = TokOk (String "/" nm :: rest) cc co ->
  1 <= cc <= INT_MAX ->
  let av := String "/" nm :: rest in
  let word := if cc >=? Z.of_nat (List.length av)
              then "" else nth (Z.to_nat cc) av "" in
  match option_at (commands st) nm (Z.to_nat (cc - 1)) with
  | Some opt =>
      match completer opt with
      | Some f =>
          complete st
          = (r <- print_or_insert_completions (el st) (f (statics_of st) word co) co ;;
             let '(ret, e, evs) := r in
             Ok (ret, with_el st e, CallCompleter opt word co :: evs))
          /\ (forall ret e evs,
                 print_or_insert_completions (el st) (f (statics_of st) word co) co
                 = Ok (ret, e, evs) ->
                 completer_calls (CallCompleter opt word co :: evs) = [(opt, word, co)])
      | None => complete st = Ok (CC_ERROR, st, [])
      end
  | None => complete st = Ok (CC_ERROR, st, [])
  end.
Proof.
  intros Htok [Hlo Hhi] av word.
  assert (Hbody : complete st = complete_tokens st av cc co).
  { unfold complete. now rewrite Htok. }
  rewrite Hbody. clear Hbody. unfold complete_tokens.
  assert (Hc0 : (cc =? 0) = false) by (apply Z.eqb_neq; lia).
  rewrite Hc0, andb_false_r.
  assert (Hac : (Z.of_nat (List.length av) =? 0) = false).
  { apply Z.eqb_neq. subst av. cbn [List.length]. lia. }
  rewrite Hac. cbn [orb].
  assert (Hskip : skip_marker av = Ok nm) by reflexivity.
  rewrite Hskip. cbn [bind].
  assert (Hnum : to_guint (cc - 1) = Z.of_nat (Z.to_nat (cc - 1))).
  { unfold to_guint. rewrite Z.mod_small; unfold INT_MAX in Hhi; lia. }
  rewrite Hnum, ev_cmd_get_opt_option_at.
  destruct (option_at (commands st) nm (Z.to_nat (cc - 1))) as [opt|]; [|reflexivity].
  destruct (completer opt) as [f|]; [|reflexivity].
  assert (Hword : match_word av cc = Ok word).
  { unfold match_word, word.
    destruct (cc >=? Z.of_nat (List.length av)) eqn:Hge; [reflexivity|].
    unfold av_at.
    destruct (Z.ltb_spec cc 0); [lia|].
    assert (Hlt : (Z.to_nat cc < List.length av)%nat).
    { destruct (Z.geb_spec cc (Z.of_nat (List.length av))); [discriminate | lia]. }
    destruct (nth_error av (Z.to_nat cc)) as [s|] eqn:Hn.
    - now rewrite (nth_error_nth _ _ "" Hn).
    - apply nth_error_None in Hn. lia. }
  rewrite Hword. cbn [bind]. split; [reflexivity|].
  intros ret e evs Hr. cbn [completer_calls].
  now rewrite (proj1 (print_or_insert_no_call _ _ _ _ _ _ Hr)).
Qed.

End OptionCompletion.

(** The second scenario of the design: ["/room-details !"] and Tab. *)
Lemma complete_option_witness :
  let st := typing full_registry fresh_hist "/room-details !" 15 in
  let opt := room_opt demo_completer "The id of the room to get the details for" in
  complete st
  = (r <- print_or_insert_completions (el st) (Some ["!abc:example.org"]) 1 ;;
     let '(ret, e, evs) := r in
     Ok (ret, with_el st e, CallCompleter opt "!" 1 :: evs))
  /\ (forall ret e evs,
         print_or_insert_completions (el st) (Some ["!abc:example.org"]) 1
         = Ok (ret, e, evs) ->
         completer_calls (CallCompleter opt "!" 1 :: evs) = [(opt, "!", 1)]).
Proof.
  intros st opt.
  refine (complete_option st "room-details" ["!"] 1 1 eq_refl _).
  unfold INT_MAX; lia.
Defined.

Example complete_room_details_bang :
  exists st' : Session,
    complete (typing full_registry fresh_hist "/room-details !" 15)
    = Ok (CC_REFRESH, st',
          [CallCompleter (room_opt demo_completer "The id of the room to get the details for")
             "!" 1])
    /\ el_line (el st')
       = {| buffer := "/room-details !abc:example.org "; cursor := 31 |}.
Proof. eexists; split; reflexivity. Qed.

(** [room-get-event] has no completer for its second option, and no
    third option: nothing is invoked there. *)
Example complete_event_id :
  let st := typing full_registry fresh_hist "/room-get-event !r:e $" 22 in
  complete st = Ok (CC_ERROR, st, []).
Proof. reflexivity. Qed.

(** ** The three renderings *)

Section Insertion.

Lemma el_insertstr_nonempty (e : EditLine) (s : string) :
  s <> "" -> el_insertstr e s = Some {| el_line := insert_at (el_line e) s |}.
Proof. destruct s; [congruence | reflexivity]. Qed.

Lemma insert_at_twice (li : LineInfo) (s1 s2 : string) :
  (cursor li <= String.length (buffer li))%nat ->
  insert_at (insert_at li s1) s2 = insert_at li (s1 ++ s2).
Proof.
  intros Hc. unfold insert_at. cbn [buffer cursor].
  set (a := take (cursor li) (buffer li)).
  set (b := skip (cursor li) (buffer li)).
  assert (Hlen : (cursor li + String.length s1)%nat = String.length (a ++ s1)).
  { rewrite length_app. unfold a. now rewrite length_take. }
  rewrite Hlen, <- (app_assoc_s a s1 b), take_app, skip_app.
  rewrite <- Hlen, length_app. f_equal.
  - now rewrite !app_assoc_s.
  - lia.
Qed.

(** What is in front of the cursor and what is behind it stays. *)
Lemma insert_at_frame (li : LineInfo) (s : string) :
  (cursor li <= String.length (buffer li))%nat ->
  take (cursor li) (buffer (insert_at li s)) = take (cursor li) (buffer li)
  /\ skip (cursor (insert_at li s)) (buffer (insert_at li s))
     = skip (cursor li) (buffer li).
Proof.
  intros Hc. unfold insert_at. cbn [buffer cursor].
  set (a := take (cursor li) (buffer li)).
  set (b := skip (cursor li) (buffer li)).
  assert (Ha : String.length a = cursor li) by (unfold a; now rewrite length_take).
  split.
  - rewrite <- Ha at 1. apply take_app.
  - replace (cursor li + String.length s)%nat with (String.length (a ++ s))
      by (rewrite length_app; lia).
    rewrite <- app_assoc_s. apply skip_app.
Qed.

End Insertion.

(** The claim fails for a candidate that is typed in full: ["/quit"]
    and Tab has the one candidate ["/quit"], its suffix at the cursor
    is empty, [el_insertstr] refuses the empty string, and the line
    stays as it is, without the space. *)
Lemma single_candidate_typed_in_full :
  let st := typing prompt_only fresh_hist "/quit" 5 in
  complete_command (commands st) "/quit" 5 = Some ["/quit"]
  /\ from "/quit" 5 = Some ""
  /\ complete st = Ok (CC_ERROR, st, []).
Proof. repeat split. Qed.

(** C3, amended.  One candidate whose suffix at the offset is not
    empty: suffix and one space are inserted at the cursor, what is in
    front of and behind the cursor stays, the line is refreshed.  One
    candidate that ends at the offset: nothing is inserted and the
    error is signalled.  Two or more candidates: the line stays, a
    line break, every candidate followed by a space, a line break, and
    the prompt is redisplayed.  No candidate: the error is signalled,
    nothing is printed and the line stays. *)
Theorem print_or_insert_completions_cases (e : EditLine) (pos : Z) :
  cursor_in_line e ->
  (forall c, 0 <= pos < strlen c ->
     let suffix := skip (Z.to_nat pos) c in
     let li' := insert_at (el_line e) (suffix ++ " ") in
     print_or_insert_completions e (Some [c]) pos
       = Ok (CC_REFRESH, {| el_line := li' |}, [])
     /\ take (cursor (el_line e)) (buffer li')
        = take (cursor (el_line e)) (buffer (el_line e))
     /\ skip (cursor li') (buffer li') = skip (cursor (el_line e)) (buffer (el_line e)))
  /\ (forall c, pos = strlen c ->
        print_or_insert_completions e (Some [c]) pos = Ok (CC_ERROR, e, []))
  /\ (forall cs, (2 <= List.length cs)%nat ->
        print_or_insert_completions e (Some cs) pos
        = Ok (CC_REDISPLAY, e,
              Print LF :: map (fun c => Print (c ++ " ")) cs ++ [Print LF]))
  /\ print_or_insert_completions e (Some []) pos = Ok (CC_ERROR, e, [])
  /\ print_or_insert_completions e None pos = Ok (CC_ERROR, e, []).
Proof.
  intros Hcur. repeat split.
  - unfold print_or_insert_completions, from.
    destruct (Z.leb_spec 0 pos); [|lia].
    destruct (Z.leb_spec pos (strlen c)); [|lia]. cbn [andb].
    assert (Hne : skip (Z.to_nat pos) c <> "").
    { intros E. apply (f_equal String.length) in E.
      rewrite length_skip in E. unfold strlen in *. simpl in E. lia. }
    rewrite (el_insertstr_nonempty e _ Hne).
    rewrite el_insertstr_nonempty by discriminate.
    cbn [el_line]. now rewrite insert_at_twice.
  - apply insert_at_frame, Hcur.
  - apply insert_at_frame, Hcur.
  - intros c ->. unfold print_or_insert_completions, from.
    destruct (Z.leb_spec 0 (strlen c)); [|unfold strlen in *; lia].
    rewrite Z.leb_refl. cbn [andb].
    assert (Hs : skip (Z.to_nat (strlen c)) c = "").
    { unfold strlen. rewrite Nat2Z.id.
      generalize (length_skip (String.length c) c). rewrite Nat.sub_diag.
      now destruct (skip (String.length c) c). }
    now rewrite Hs.
  - intros [|c [|c' cs]] Hlen; simpl in Hlen; try lia. reflexivity.
Qed.

Lemma print_or_insert_completions_cases_witness :
  print_or_insert_completions
    {| el_line := {| buffer := "/he"; cursor := 3 |} |} (Some ["/help"]) 3
  = Ok (CC_REFRESH, {| el_line := {| buffer := "/help "; cursor := 6 |} |}, []).
Proof.
  refine (proj1 (proj1 (print_or_insert_completions_cases
                          {| el_line := {| buffer := "/he"; cursor := 3 |} |} 3 _)
                   "/help" _)).
  - unfold cursor_in_line; simpl; lia.
  - unfold strlen; simpl; lia.
Defined.

(** ** Facts on the history *)

Section HistoryFacts.

Lemma firstn_removelast {A : Type} (n : nat) (l : list A) :
  (n < List.length l)%nat -> firstn n (removelast l) = firstn n l.
Proof.
  revert n; induction l as [|x l IH]; intros n Hn; simpl in Hn; [lia|].
  destruct l as [|y l].
  - destruct n; [reflexivity | simpl in Hn; lia].
  - destruct n as [|n]; [reflexivity|].
    cbn [removelast firstn]. f_equal. apply (IH n). simpl. simpl in Hn. lia.
Qed.

(** The eviction loop keeps the most recent [max] events. *)
Lemma history_trim_firstn (fuel : nat) : forall (max : Z) (l : list HistEvent),
  (List.length l <= fuel)%nat -> 0 <= max ->
  history_trim fuel max l = firstn (Z.to_nat max) l.
Proof.
  induction fuel as [|fuel IH]; intros max l Hf Hmax.
  - destruct l; [now rewrite firstn_nil | simpl in Hf; lia].
  - cbn [history_trim].
    destruct (Z.ltb_spec max (Z.of_nat (List.length l))) as [Hlt|Hge]; cbn [andb].
    + destruct (Z.ltb_spec 0 (Z.of_nat (List.length l))) as [Hpos|Hz]; [|lia].
      rewrite IH; [|rewrite removelast_firstn_len, length_firstn; lia|lia].
      apply firstn_removelast. lia.
    + symmetry. apply firstn_all2. lia.
Qed.

Lemma history_enter_dup (h : History) (s : string) :
  is_dup h s = true -> history_enter h s = h.
Proof. unfold history_enter, is_dup. now intros ->. Qed.

Lemma history_enter_new (h : History) (s : string) :
  is_dup h s = false -> 0 <= h_max h ->
  h_strs (history_enter h s) = firstn (Z.to_nat (h_max h)) (s :: h_strs h)
  /\ h_max (history_enter h s) = h_max h
  /\ h_unique (history_enter h s) = h_unique h.
Proof.
  unfold history_enter, is_dup. intros -> Hmax.
  unfold h_strs. cbn [h_events h_max h_unique].
  rewrite history_trim_firstn by (auto; lia).
  now rewrite <- firstn_map.
Qed.

Lemma is_dup_head (h : History) (s : string) :
  h_unique h = true ->
  (is_dup h s = true <-> hd_error (h_strs h) = Some s).
Proof.
  unfold is_dup, h_strs. intros ->.
  destruct (h_events h) as [|e l]; cbn [map hd_error andb].
  - split; discriminate.
  - rewrite String.eqb_eq. split; [now intros -> | now intros [= ->]].
Qed.

(** After [H_ENTER] on a history that holds at least one event, the
    line is the most recent event. *)
Lemma history_enter_head (h : History) (s : string) :
  0 < h_max h -> hd_error (h_strs (history_enter h s)) = Some s.
Proof.
  intros Hmax. destruct (is_dup h s) eqn:Hd.
  - rewrite history_enter_dup by exact Hd.
    unfold is_dup, h_strs in *. destruct (h_events h) as [|e l]; [discriminate|].
    apply andb_prop in Hd as [_ Hd]. apply String.eqb_eq in Hd.
    cbn [map hd_error]. now rewrite Hd.
  - destruct (history_enter_new h s Hd ltac:(lia)) as [-> _].
    destruct (Z.to_nat (h_max h)) eqn:E; [lia | reflexivity].
Qed.

Lemma configured_enter (h : History) (s : string) :
  configured h -> configured (history_enter h s).
Proof.
  intros (Hm & Hu & Hl). destruct (is_dup h s) eqn:Hd.
  - rewrite history_enter_dup by exact Hd. now repeat split.
  - destruct (history_enter_new h s Hd) as (Hs & Hm' & Hu').
    { rewrite Hm. unfold HISTORY_SIZE. lia. }
    repeat split; [congruence | congruence |].
    assert (E : List.length (h_events (history_enter h s))
                = List.length (h_strs (history_enter h s)))
      by (unfold h_strs; now rewrite length_map).
    rewrite E, Hs, length_firstn, Hm. lia.
Qed.

Lemma configured_load (lines : list string) : forall h : History,
  configured h -> configured (history_load h lines).
Proof.
  unfold history_load.
  induction lines as [|s lines IH]; intros h Hc; [exact Hc|].
  cbn [fold_left]. apply IH, configured_enter, Hc.
Qed.

Lemma configured_fresh : configured fresh_hist.
Proof. repeat split. unfold HISTORY_SIZE. simpl. lia. Qed.

End HistoryFacts.

(** ** Submitted lines *)

Section SubmittedLines.

Lemma submitted_nonempty (buf : string) : submitted buf -> 0 < strlen buf.
Proof. unfold submitted, strlen. destruct buf; [discriminate | simpl; lia]. Qed.

(** The only submitted line of at most one character is the bare
    newline. *)
Lemma submitted_short (buf : string) :
  submitted buf -> strlen buf <= 1 -> buf = LF.
Proof.
  unfold submitted, strlen. destruct buf as [|c [|c' t]]; simpl; intros H Hl.
  - discriminate.
  - now injection H as ->.
  - lia.
Qed.

(** The bare newline has no token, wherever the cursor is. *)
Lemma tok_line_newline (cur : nat) :
  tok_line {| buffer := LF; cursor := cur |} = TokOk [] 0 0.
Proof. destruct cur; reflexivity. Qed.

Lemma tok_line_token_long (li : LineInfo) (a : string) (rest : list string) (cc co : Z) :
  submitted (buffer li) -> tok_line li = TokOk (a :: rest) cc co ->
  1 < strlen (buffer li).
Proof.
  intros Hs Ht.
  destruct (Z.ltb_spec 1 (strlen (buffer li))) as [|Hle]; [assumption|].
  pose proof (submitted_short _ Hs Hle) as E.
  destruct li as [b c]. cbn [buffer] in E. subst b.
  rewrite tok_line_newline in Ht. discriminate.
Qed.

Variable st : Session.

(** [on_stdin_ready] on a submitted line that tokenizes. *)
Lemma on_stdin_ready_submitted (av : list string) (cc co : Z) :
  submitted (buffer (el_line (el st))) ->
  tok_line (el_line (el st)) = TokOk av cc co ->
  on_stdin_ready st
  = match av with
    | a0 :: _ =>
        if starts_with_slash a0
        then evs <- run_command (recorded st) av ;; Ok (reset (recorded st), evs)
        else Ok (reset (recorded st), [])
    | [] => Ok (reset (recorded st), [])
    end.
Proof.
  intros Hs Ht. pose proof (submitted_nonempty _ Hs) as Hpos.
  unfold on_stdin_ready, recorded.
  set (buf := buffer (el_line (el st))) in *.
  unfold submitted in Hs. rewrite Hs.
  change (is_newline "010"%char) with true. cbn [negb].
  rewrite Ht.
  destruct (Z.eqb_spec (strlen buf) 0) as [E|_]; [lia|].
  destruct av as [|a0 rest]; reflexivity.
Qed.

Lemma run_command_marker (s : Session) (nm : string) (rest : list string) :
  run_command s (String "/" nm :: rest)
  = Ok (run_command_loop (commands s) (statics_of s) nm rest).
Proof. reflexivity. Qed.

(** [on_stdin_ready] leaves the history alone or enters the line, and
    it enters only a line of more than one character. *)
Lemma on_stdin_ready_history (st' : Session) (evs : list event) :
  on_stdin_ready st = Ok (st', evs) ->
  let buf := buffer (el_line (el st)) in
  hist st' = hist st
  \/ (1 < strlen buf /\ hist st' = history_enter (hist st) buf).
Proof.
  intros Hr buf.
  destruct (last_char buf) as [c|] eqn:Hl.
  2:{ unfold on_stdin_ready in Hr. fold buf in Hr. rewrite Hl in Hr. discriminate. }
  destruct (is_newline c) eqn:Hn.
  2:{ unfold on_stdin_ready in Hr. fold buf in Hr. rewrite Hl, Hn in Hr.
      cbn [negb] in Hr. injection Hr as <- _. now left. }
  assert (Hs : submitted buf).
  { unfold submitted. rewrite Hl. f_equal. now apply Ascii.eqb_eq. }
  destruct (tok_line (el_line (el st))) as [|code| |av cc co] eqn:Ht.
  - unfold on_stdin_ready in Hr. fold buf in Hr. rewrite Hl, Hn, Ht in Hr.
    cbn [negb] in Hr. injection Hr as <- _. now left.
  - unfold on_stdin_ready in Hr. fold buf in Hr. rewrite Hl, Hn, Ht in Hr.
    cbn [negb] in Hr. destruct (strlen buf =? 0); [|discriminate].
    injection Hr as <- _. now left.
  - unfold on_stdin_ready in Hr. fold buf in Hr. rewrite Hl, Hn, Ht in Hr.
    discriminate.
  - rewrite (on_stdin_ready_submitted av cc co Hs Ht) in Hr.
    assert (Hst : st' = reset (recorded st)).
    { destruct av as [|a0 rest]; [now injection Hr as <- _|].
      destruct (starts_with_slash a0) eqn:Hm; [|now injection Hr as <- _].
      apply starts_with_slash_spec in Hm as [nm ->].
      rewrite run_command_marker in Hr. cbn [bind] in Hr. now injection Hr as <- _. }
    subst st'. unfold recorded. fold buf.
    destruct (Z.ltb_spec 1 (strlen buf)); [now right | now left].
Qed.

End SubmittedLines.

(** ** Lines that are not commands *)

(** The claim fails three times.  ["hello"] and Enter: the line does
    not begin with the marker and is entered into the history all the
    same.  [" /quit"] and Enter: the line begins with a blank, its
    first token with the marker, and [quit] is dispatched.  And
    ["hello "] followed by a double quote, ["x"] and Enter: the quote
    is left open, [tok_line] returns 2 and writes no tokens, the test
    [tok_line (...) < 0] lets the line pass, and instead of resetting
    the widget the code reads [av[0]], which was never set. *)
Lemma plain_line_is_recorded :
  (exists st' : Session,
      on_stdin_ready (typing prompt_only fresh_hist ("hello" ++ LF) 5) = Ok (st', [])
      /\ h_strs (hist st') = ["hello" ++ LF]
      /\ h_strs fresh_hist = [])
  /\ (exists (st' : Session) (c : EvCmd),
         on_stdin_ready (typing prompt_only fresh_hist (" /quit" ++ LF) 6)
         = Ok (st', [CallHandler c []])
         /\ name c = "quit"
         /\ first_char (" /quit" ++ LF) = Some " "%char)
  /\ (let line := "hello " ++ String "034" "x" ++ LF in
      tok_line {| buffer := line; cursor := 8 |} = TokMore 2
      /\ on_stdin_ready (typing prompt_only fresh_hist line 8) = Undefined).
Proof.
  split; [|split].
  - eexists. repeat split.
  - do 2 eexists. repeat split.
  - split; reflexivity.
Qed.

Section NonCommandLines.

Variable st : Session.

(** C4, amended.  A submitted line that the tokenizer splits
    completely ([tok_line] returns 0, with the tokens) and that has no
    token, or whose first token does not begin with the marker,
    dispatches no command and prints nothing; the widget is reset; the
    history is unchanged when the line is the bare newline, and a
    longer line is entered into it.  A line on which the tokenizer
    stops inside a quote is not part of the statement. *)
Theorem non_command_line (av : list string) (cc co : Z) :
  submitted (buffer (el_line (el st))) ->
  tok_line (el_line (el st)) = TokOk av cc co ->
  match av with
  | [] => True
  | a0 :: _ => starts_with_slash a0 = false
  end ->
  let buf := buffer (el_line (el st)) in
  exists st' : Session,
    on_stdin_ready st = Ok (st', [])
    /\ el st' = el_init
    /\ commands st' = commands st
    /\ hist st' = (if 1 <? strlen buf then history_enter (hist st) buf else hist st)
    /\ (buf = LF -> hist st' = hist st).
Proof.
  intros Hs Ht Hav buf.
  exists (reset (recorded st)).
  rewrite (on_stdin_ready_submitted st av cc co Hs Ht).
  assert (Hh : hist (reset (recorded st))
               = (if 1 <? strlen buf then history_enter (hist st) buf else hist st)).
  { unfold recorded. fold buf. now destruct (1 <? strlen buf). }
  assert (Hc : commands (reset (recorded st)) = commands st).
  { unfold recorded. now destruct (1 <? strlen _). }
  repeat split.
  - destruct av as [|a0 rest]; [reflexivity | now rewrite Hav].
  - exact Hc.
  - exact Hh.
  - intros E. rewrite Hh, E. reflexivity.
Qed.

End NonCommandLines.

Lemma non_command_line_witness :
  let st := typing prompt_only fresh_hist ("hello" ++ LF) 5 in
  exists st' : Session,
    on_stdin_ready st = Ok (st', [])
    /\ el st' = el_init
    /\ commands st' = commands st
    /\ hist st' = history_enter (hist st) ("hello" ++ LF)
    /\ ("hello" ++ LF = LF -> hist st' = hist st).
Proof.
  intros st.
  refine (non_command_line st ["hello"] 0 5 _ _ _); reflexivity.
Defined.

(** ** What is entered into the history *)

(** The claim fails on a line of one character: ["a"] and Enter.  The
    buffer that [on_stdin_ready] measures holds the newline, its
    length is 2, and the line is entered into the history, which was
    empty. *)
Lemma single_character_is_recorded :
  let st := typing prompt_only fresh_hist ("a" ++ LF) 1 in
  String.length "a" = 1%nat
  /\ h_strs (hist st) = []
  /\ exists st' : Session,
       on_stdin_ready st = Ok (st', [])
       /\ h_strs (hist st') = ["a" ++ LF].
Proof. split; [|split]; try reflexivity. eexists; split; reflexivity. Qed.

Section Recording.

Variable st : Session.

(** C5, amended.  The submitted buffer is what was typed followed by
    the newline.  When nothing was typed the line is processed and the
    history is left as it is.  Whenever [on_stdin_ready] changes the
    history, something was typed and the change is the [H_ENTER] of
    the line.  And a line of at least one typed character, also of a
    single one, that the tokenizer splits completely is handed to
    [H_ENTER] before anything is dispatched: the handler, if there is
    one, runs on the history that holds the line, and so does the
    reset. *)
Theorem history_skips_empty_line (typed : string) :
  buffer (el_line (el st)) = typed ++ LF ->
  let buf := buffer (el_line (el st)) in
  (typed = "" ->
     on_stdin_ready st = Ok (reset st, []) /\ hist (reset st) = hist st)
  /\ (forall st' evs,
        on_stdin_ready st = Ok (st', evs) ->
        hist st' <> hist st ->
        typed <> "" /\ hist st' = history_enter (hist st) buf)
  /\ (typed <> "" ->
      forall av cc co,
        tok_line (el_line (el st)) = TokOk av cc co ->
        let entered := with_hist st (history_enter (hist st) buf) in
        on_stdin_ready st
        = match av with
          | a0 :: _ =>
              if starts_with_slash a0
              then evs <- run_command entered av ;; Ok (reset entered, evs)
              else Ok (reset entered, [])
          | [] => Ok (reset entered, [])
          end).
Proof.
  intros Hb buf.
  assert (Hs : submitted buf).
  { unfold buf, submitted. rewrite Hb. clear Hb.
    induction typed as [|c t IH]; [reflexivity|].
    cbn [append last_char]. rewrite IH.
    destruct (t ++ LF) eqn:E; [destruct t; discriminate | reflexivity]. }
  assert (Hlen : strlen buf = Z.of_nat (String.length typed) + 1).
  { unfold buf, strlen. rewrite Hb, length_app. cbn [String.length LF]. lia. }
  assert (Hrec : typed <> "" ->
                 recorded st = with_hist st (history_enter (hist st) buf)).
  { intros Hne. unfold recorded. fold buf.
    destruct (Z.ltb_spec 1 (strlen buf)); [reflexivity|].
    destruct typed; [congruence | cbn [String.length] in Hlen; lia]. }
  split; [|split].
  - intros ->. split; [|reflexivity].
    pose proof (tok_line_newline (cursor (el_line (el st)))) as Ht.
    cbn [append] in Hb. rewrite <- Hb in Ht.
    assert (Hli : {| buffer := buffer (el_line (el st));
                     cursor := cursor (el_line (el st)) |} = el_line (el st))
      by now destruct (el_line (el st)).
    rewrite Hli in Ht.
    rewrite (on_stdin_ready_submitted st [] 0 0 Hs Ht).
    unfold recorded. fold buf.
    destruct (Z.ltb_spec 1 (strlen buf)); [cbn [String.length] in Hlen; lia | reflexivity].
  - intros st' evs Hr Hch.
    destruct (on_stdin_ready_history st st' evs Hr) as [E | [Hlong E]];
      [contradiction|].
    split; [|exact E].
    intros ->. fold buf in Hlong. cbn [String.length] in Hlen. lia.
  - intros Hne av cc co Ht entered.
    rewrite (on_stdin_ready_submitted st av cc co Hs Ht), (Hrec Hne).
    reflexivity.
Qed.

End Recording.

Lemma history_skips_empty_line_witness :
  let st := typing prompt_only fresh_hist ("a" ++ LF) 1 in
  on_stdin_ready st
  = Ok (reset (with_hist st (history_enter (hist st) ("a" ++ LF))), []).
Proof.
  intros st.
  refine (proj2 (proj2 (history_skips_empty_line st "a" eq_refl)) _ ["a"] 0 1 eq_refl).
  discriminate.
Defined.

(** Nothing typed: the bare newline is processed and not entered. *)
Example bare_newline :
  let st := typing prompt_only fresh_hist LF 0 in
  on_stdin_ready st = Ok (reset st, []) /\ hist (reset st) = hist st.
Proof. split; reflexivity. Qed.

(** ** Dispatch *)

Section Dispatch.

Variable st : Session.

Lemma run_command_loop_unknown (cmds : list EvCmd) (statics : Statics)
    (nm : string) (args : list string) :
  (forall c, In c cmds -> name c <> nm) ->
  run_command_loop cmds statics nm args
  = [Print (LF ++ "Unknown command '" ++ nm ++ "'" ++ LF)].
Proof.
  induction cmds as [|c rest IH]; intros Hno; [reflexivity|].
  cbn [run_command_loop]. unfold g_str_equal.
  destruct (String.eqb_spec nm (name c)) as [E|_].
  - exfalso. apply (Hno c); [now left | now symmetry].
  - apply IH. intros c' Hin. apply Hno. now right.
Qed.

Lemma run_command_loop_found (cmds : list EvCmd) (statics : Statics)
    (nm : string) (args : list string) (c : EvCmd) :
  find (fun c => String.eqb nm (name c)) cmds = Some c ->
  run_command_loop cmds statics nm args
  = CallHandler c args :: render (func c statics args).
Proof.
  induction cmds as [|c' rest IH]; [discriminate|].
  cbn [find run_command_loop]. unfold g_str_equal.
  destruct (nm =? name c')%string; [now intros [= ->] | exact IH].
Qed.

(** C7.  A submitted line whose first token is the marker followed by
    a name that no registered command has: the unknown-command
    message with that name is all that happens (no handler is
    invoked), the widget is reset, and the line has been entered into
    the history, where it is the most recent event. *)
Theorem unknown_command (nm : string) (rest : list string) (cc co : Z) :
  submitted (buffer (el_line (el st))) ->
  tok_line (el_line (el st)) = TokOk (String "/" nm :: rest) cc co ->
  (forall c, In c (commands st) -> name c <> nm) ->
  0 < h_max (hist st) ->
  let buf := buffer (el_line (el st)) in
  let evs := [Print (LF ++ "Unknown command '" ++ nm ++ "'" ++ LF)] in
  exists st' : Session,
    on_stdin_ready st = Ok (st', evs)
    /\ handler_calls evs = []
    /\ 1 < strlen buf
    /\ hist st' = history_enter (hist st) buf
    /\ hd_error (h_strs (hist st')) = Some buf
    /\ el st' = el_init.
Proof.
  intros Hs Ht Hno Hmax buf evs.
  pose proof (tok_line_token_long _ _ _ _ _ Hs Ht) as Hlong.
  exists (reset (recorded st)).
  rewrite (on_stdin_ready_submitted st _ cc co Hs Ht).
  cbn [starts_with_slash first_char]. rewrite Ascii.eqb_refl.
  rewrite run_command_marker. cbn [bind].
  assert (Hc : commands (recorded st) = commands st).
  { unfold recorded. now destruct (1 <? strlen _). }
  rewrite Hc, run_command_loop_unknown by exact Hno.
  assert (Hh : hist (reset (recorded st)) = history_enter (hist st) buf).
  { unfold recorded, buf.
    destruct (Z.ltb_spec 1 (strlen (buffer (el_line (el st))))); [reflexivity | lia]. }
  repeat split; try assumption.
  rewrite Hh. now apply history_enter_head.
Qed.

(** C8.  A dispatched command that is registered has its handler
    invoked with the tokens after the first; what is printed depends
    on the result alone.  No buffer and an error: the message of the
    error between the colour sequences.  No buffer and no error: the
    internal-error message between the colour sequences.  An empty
    buffer: nothing.  A buffer with text: the text, without colour. *)
Theorem run_command_render (nm : string) (args : list string) (c : EvCmd) :
  find (fun c => String.eqb nm (name c)) (commands st) = Some c ->
  let r := func c (statics_of st) args in
  run_command st (String "/" nm :: args) = Ok (CallHandler c args :: render r)
  /\ (forall message,
        h_out r = None -> h_err r = Some message ->
        render r = [Print (ESC ++ "[31m");
                    Print ("Command failed: " ++ message ++ LF);
                    Print (ESC ++ "[39m")])
  /\ (h_out r = None -> h_err r = None ->
      render r = [Print (ESC ++ "[31m");
                  Print ("Internal error - Command failed to set error" ++ LF);
                  Print (ESC ++ "[39m")])
  /\ (h_out r = Some "" -> render r = [])
  /\ (forall out,
        h_out r = Some out -> out <> "" -> render r = [Print (LF ++ out ++ LF)]).
Proof.
  intros Hf r. split.
  - rewrite run_command_marker. f_equal. now apply run_command_loop_found.
  - unfold render. repeat split.
    + intros message -> ->. reflexivity.
    + intros -> ->. reflexivity.
    + intros ->. reflexivity.
    + intros out -> Hne. destruct out; [congruence | reflexivity].
Qed.

End Dispatch.

Lemma unknown_command_witness :
  let st := typing prompt_only fresh_hist ("/bogus" ++ LF) 6 in
  let evs := [Print (LF ++ "Unknown command 'bogus'" ++ LF)] in
  exists st' : Session,
    on_stdin_ready st = Ok (st', evs)
    /\ handler_calls evs = []
    /\ 1 < strlen ("/bogus" ++ LF)
    /\ hist st' = history_enter fresh_hist ("/bogus" ++ LF)
    /\ hd_error (h_strs (hist st')) = Some ("/bogus" ++ LF)
    /\ el st' = el_init.
Proof.
  intros st.
  refine (unknown_command st "bogus" [] 0 6 _ _ _ _).
  - reflexivity.
  - reflexivity.
  - intros c [<-|[<-|[<-|[]]]]; discriminate.
  - reflexivity.
Defined.

Lemma run_command_render_witness :
  exists c : EvCmd,
    run_command (typing offline_registry fresh_hist ("/client-details" ++ LF) 15)
      ["/client-details"]
    = Ok [CallHandler c [];
          Print (ESC ++ "[31m");
          Print ("Internal error - Command failed to set error" ++ LF);
          Print (ESC ++ "[39m")].
Proof.
  eexists.
  refine (proj1 (run_command_render
                   (typing offline_registry fresh_hist ("/client-details" ++ LF) 15)
                   "client-details" [] _ eq_refl)).
Defined.

Example rooms_without_client :
  exists c : EvCmd,
    run_command (typing offline_registry fresh_hist ("/rooms" ++ LF) 6) ["/rooms"]
    = Ok [CallHandler c []; Print (LF ++ "No joined rooms" ++ LF ++ LF)].
Proof. eexists; reflexivity. Qed.

(** ** The history of a session *)

Section SessionHistory.

Lemma with_el_same (st : Session) : with_el st (el st) = st.
Proof. now destruct st. Qed.

Lemma complete_tokens_frame (st : Session) (av : list string) (cc co : Z)
    (ret : CC) (st' : Session) (evs : list event) :
  complete_tokens st av cc co = Ok (ret, st', evs) ->
  hist st' = hist st /\ commands st' = commands st.
Proof.
  unfold complete_tokens.
  destruct ((Z.of_nat (List.length av) <? 2) && (cc =? 0)).
  - destruct (match_word av cc) as [word| |]; cbn [bind]; try discriminate.
    destruct (print_or_insert_completions _ _ _) as [[[r e] ev]| |];
      cbn [bind]; try discriminate.
    intros [= _ <- _]. now split.
  - destruct ((Z.of_nat (List.length av) =? 0) || (cc =? 0)).
    + intros [= _ <- _]. now split.
    + destruct (skip_marker av) as [nm| |]; cbn [bind]; try discriminate.
      destruct (ev_cmd_get_opt _ _ _) as [opt|]; [|intros [= _ <- _]; now split].
      destruct (completer opt) as [f|]; [|intros [= _ <- _]; now split].
      destruct (match_word av cc) as [word| |]; cbn [bind]; try discriminate.
      destruct (print_or_insert_completions _ _ _) as [[[r e] ev]| |];
        cbn [bind]; try discriminate.
      intros [= _ <- _]. now split.
Qed.

(** [complete] touches neither the history nor the registry. *)
Lemma complete_frame (st : Session) (ret : CC) (st' : Session) (evs : list event) :
  complete st = Ok (ret, st', evs) ->
  hist st' = hist st /\ commands st' = commands st.
Proof.
  unfold complete. destruct (tok_line _) as [|code| |av cc co].
  - intros [= _ <- _]. now split.
  - apply complete_tokens_frame.
  - discriminate.
  - apply complete_tokens_frame.
Qed.

(** Every session keeps the set-up of [ev_prompt_init]: size 100,
    the unique flag, at most 100 events. *)
Lemma reachable_configured (st : Session) : reachable st -> configured (hist st).
Proof.
  induction 1 as [cmds file st Hi | st e _ IH | st ret st' evs _ IH Hc
                  | st st' evs _ IH Hr].
  - unfold ev_prompt_init in Hi. injection Hi as <-. cbn [hist].
    destruct file as [lines|]; [apply configured_load|]; apply configured_fresh.
  - exact IH.
  - destruct (complete_frame _ _ _ _ Hc) as [-> _]. exact IH.
  - destruct (on_stdin_ready_history _ _ _ Hr) as [-> | [_ ->]];
      [exact IH | now apply configured_enter].
Qed.

Lemma reachable_started : reachable started.
Proof. now apply (reach_init prompt_only None). Qed.

Lemma reachable_enter_line (st : Session) (line : string) :
  reachable st -> reachable (enter_line st line).
Proof.
  intros Hst. unfold enter_line.
  destruct (on_stdin_ready _) as [[st' evs]| |] eqn:Hr; try exact Hst.
  eapply reach_line; [|exact Hr]. now apply reach_edit.
Qed.

End SessionHistory.

(** The claim fails on a line that is in the history but is not its
    most recent one: in the session that has entered ["/a"] and then
    ["/b"], entering ["/a"] again gives three events, ["/a"] twice. *)
Lemma history_keeps_older_duplicate :
  let st := enter_line (enter_line started ("/a" ++ LF)) ("/b" ++ LF) in
  reachable st
  /\ h_strs (hist st) = ["/b" ++ LF; "/a" ++ LF]
  /\ h_strs (hist (enter_line st ("/a" ++ LF)))
     = ["/a" ++ LF; "/b" ++ LF; "/a" ++ LF].
Proof.
  intros st. split; [|split; reflexivity].
  apply reachable_enter_line, reachable_enter_line, reachable_started.
Qed.

(** C6, amended.  In every session the history holds at most 100
    events.  Entering the line that is the most recent event changes
    nothing; entering any other line, whether an older event has it
    or not, puts it in front as the most recent event and keeps the
    100 most recent ones, so that the oldest goes first. *)
Theorem history_bounded (st : Session) :
  reachable st ->
  (List.length (h_events (hist st)) <= 100)%nat
  /\ forall s : string,
       (hd_error (h_strs (hist st)) = Some s ->
        history_enter (hist st) s = hist st)
       /\ (hd_error (h_strs (hist st)) <> Some s ->
           h_strs (history_enter (hist st) s)
           = firstn 100 (s :: h_strs (hist st))).
Proof.
  intros Hst. destruct (reachable_configured st Hst) as (Hm & Hu & Hl).
  split; [exact Hl|]. intros s. split.
  - intros Hh. apply history_enter_dup. now apply is_dup_head.
  - intros Hh. destruct (is_dup (hist st) s) eqn:Hd.
    + exfalso. apply Hh. now apply is_dup_head.
    + destruct (history_enter_new (hist st) s Hd) as [-> _].
      * rewrite Hm. unfold HISTORY_SIZE. lia.
      * now rewrite Hm.
Qed.

Lemma history_bounded_witness :
  List.length (h_events (hist restarted)) = 100%nat
  /\ (List.length (h_events (hist restarted)) <= 100)%nat
  /\ history_enter (hist restarted) (saved_line 100) = hist restarted
  /\ h_strs (history_enter (hist restarted) (saved_line 50))
     = firstn 100 (saved_line 50 :: h_strs (hist restarted))
  /\ In (saved_line 50) (h_strs (hist restarted))
  /\ In (saved_line 1) (h_strs (hist restarted))
  /\ ~ In (saved_line 1) (h_strs (history_enter (hist restarted) (saved_line 50))).
Proof.
  pose (bounded := history_bounded restarted
                     (reach_init prompt_only (Some saved_lines) restarted eq_refl)).
  split; [vm_compute; reflexivity|].
  split; [exact (proj1 bounded)|].
  split; [apply (proj1 (proj2 bounded (saved_line 100))); vm_compute; reflexivity|].
  split; [apply (proj2 (proj2 bounded (saved_line 50))); vm_compute; discriminate|].
  split; [vm_compute; tauto|].
  split; [vm_compute; tauto|].
  rewrite (proj2 (proj2 bounded (saved_line 50))) by (vm_compute; discriminate).
  vm_compute. intuition discriminate.
Defined.

(** ** Registration *)

(** The claim fails: registering the commands of the prompt twice
    gives a registry with every name twice, and [ev_prompt_init]
    completes on it. *)
Lemma duplicate_commands_registered :
  let commands_ :=
    ev_prompt_add_commands demo_handler (ev_prompt_add_commands demo_handler []) in
  exists st : Session,
    ev_prompt_init None commands_ None = Ok st
    /\ map name (commands st)
       = ["help"; "history"; "quit"; "help"; "history"; "quit"].
Proof. eexists; split; reflexivity. Qed.

Section Registration.

Lemma add_commands_entries (table : list (option EvCmd)) : forall commands_ : list EvCmd,
  add_commands table commands_ = (commands_ ++ table_entries table)%list.
Proof.
  induction table as [|[c|] rest IH]; intros commands_; cbn [add_commands table_entries].
  - now rewrite app_nil_r.
  - rewrite IH. unfold g_ptr_array_add. now rewrite <- app_assoc.
  - now rewrite app_nil_r.
Qed.

Lemma register_all (tables : list (list (option EvCmd))) : forall commands_ : list EvCmd,
  fold_left (fun acc table => add_commands table acc) tables commands_
  = (commands_ ++ concat (map table_entries tables))%list.
Proof.
  induction tables as [|t rest IH]; intros commands_; cbn [fold_left map concat].
  - now rewrite app_nil_r.
  - now rewrite IH, add_commands_entries, <- app_assoc.
Qed.

(** C9, amended.  Registration appends the commands of every table in
    order and compares no names; whatever the tables are,
    [ev_prompt_init] completes with all their commands in the
    registry, two of the same name included, and a name resolves to
    the command registered first.  The one fatal condition is a second
    initialisation. *)
Theorem registration_keeps_duplicates (tables : list (list (option EvCmd)))
    (file : option (list string)) :
  let commands_ := fold_left (fun acc table => add_commands table acc) tables [] in
  commands_ = concat (map table_entries tables)
  /\ (exists st : Session,
         ev_prompt_init None commands_ file = Ok st /\ commands st = commands_)
  /\ (forall nm : string,
         ev_cmds_get commands_ (Some nm)
         = find (fun c => String.eqb nm (name c)) commands_)
  /\ (forall old : Session, ev_prompt_init (Some old) commands_ file = Aborted).
Proof.
  intros commands_. repeat split.
  - unfold commands_. now rewrite register_all.
  - eexists. split; reflexivity.
  - intros nm. apply ev_cmds_get_loop_find.
Qed.

(** The start of the application registers eleven commands, no two of
    the same name. *)
Lemma startup_names (handler : string -> EvCmdFunc)
    (opt_completer : string -> EvCmdOptCompl) (file : option (list string)) :
  exists st : Session,
    ev_application_startup handler opt_completer None false file = Ok st
    /\ map name (commands st)
       = ["client-details"; "rooms"; "room-details"; "room-events";
          "room-load-past-events"; "room-get-event"; "get-pushers";
          "remove-pusher"; "help"; "history"; "quit"]
    /\ NoDup (map name (commands st)).
Proof.
  eexists. split; [reflexivity|]. split; [reflexivity|].
  cbn. repeat (constructor; [cbn; intuition discriminate|]). constructor.
Qed.

End Registration.

(** ** Completion on a line without the marker *)

Section NoMarker.

Variable st : Session.

(** With the cursor in the first token, or on an empty line, a line
    without the marker has no candidates. *)
Lemma complete_first_token_without_marker (av : list string) (co : Z) :
  tok_line (el_line (el st)) = TokOk av 0 co ->
  match av with
  | [] => True
  | a0 :: _ => starts_with_slash a0 = false
  end ->
  complete st = Ok (CC_ERROR, st, []).
Proof.
  intros Ht Hav. unfold complete. rewrite Ht. unfold complete_tokens.
  rewrite Z.eqb_refl, andb_true_r, orb_true_r.
  destruct (Z.ltb_spec (Z.of_nat (List.length av)) 2) as [Hlt|_]; [|reflexivity].
  destruct av as [|a0 [|a1 rest]]; cbn [List.length] in Hlt; try lia.
  - cbn. now rewrite with_el_same.
  - cbn [match_word List.length Z.of_nat Z.geb Z.compare av_at Z.ltb
         Z.to_nat nth_error bind].
    unfold complete_command. rewrite Hav. cbn. now rewrite with_el_same.
Qed.

(** With the cursor in a later token the first character of the first
    token is skipped unseen: any character there does what the marker
    does. *)
Lemma complete_tokens_skips_first_char (c0 : ascii) (nm : string)
    (rest : list string) (cc co : Z) :
  1 <= cc ->
  complete_tokens st (String c0 nm :: rest) cc co
  = complete_tokens st (String "/" nm :: rest) cc co.
Proof.
  intros Hcc. unfold complete_tokens. cbn [List.length skip_marker bind].
  assert (Hw : match_word (String c0 nm :: rest) cc
               = match_word (String "/" nm :: rest) cc).
  { unfold match_word, av_at. cbn [List.length].
    destruct (cc >=? _); [reflexivity|].
    destruct (Z.ltb_spec cc 0); [lia|].
    destruct (Z.to_nat cc) as [|k] eqn:E; [lia | reflexivity]. }
  rewrite Hw.
  assert (Hc0 : (cc =? 0) = false) by (apply Z.eqb_neq; lia).
  now rewrite Hc0, andb_false_r.
Qed.

End NoMarker.

(** C10.  The code at ["xhelp "] and Tab: the first token does not
    begin with the marker, the cursor is in the second token,
    [name++] skips the ["x"], [help] resolves, the completer of its
    option is invoked and the three commands are printed. *)
Theorem complete_without_marker :
  let st := typing prompt_only fresh_hist "xhelp " 6 in
  tok_line (el_line (el st)) = TokOk ["xhelp"] 1 0
  /\ starts_with_slash "xhelp" = false
  /\ exists opt : EvCmdOpt,
       opt_name opt = Some "command"
       /\ complete st
          = Ok (CC_REDISPLAY, st,
                [CallCompleter opt "" 0;
                 Print LF; Print "help "; Print "history "; Print "quit ";
                 Print LF]).
Proof.
  intros st. split; [reflexivity|]. split; [reflexivity|].
  eexists. split; cycle 1.
  - reflexivity.
  - reflexivity.
Qed.

(** ** The formatter *)

Section Formatter.

Lemma to_int_small (z : Z) : 0 <= z <= INT_MAX -> to_int z = z.
Proof.
  unfold to_int, INT_MAX. intros H.
  rewrite Z.mod_small; lia.
Qed.

Lemma to_size_t_small (z : Z) : 0 <= z <= INT_MAX -> to_size_t z = z.
Proof. unfold to_size_t, INT_MAX. intros H. apply Z.mod_small. lia. Qed.

Lemma length_spaces (n : nat) : String.length (spaces n) = n.
Proof. induction n as [|n IH]; simpl; [reflexivity | now rewrite IH]. Qed.

Lemma longest_key_bound (ks : list (option string)) (k : string) :
  In (Some k) ks -> (String.length k <= longest_key ks)%nat.
Proof.
  induction ks as [|[k'|] rest IH]; cbn [In longest_key]; intros H.
  - contradiction.
  - destruct H as [[= ->]|H]; [lia | specialize (IH H); lia].
  - destruct H as [[=]|H]. now apply IH.
Qed.

(** The first loop finds the longest key. *)
Lemma max_key_len_longest (ks : list (option string)) : forall m : nat,
  (forall k, In (Some k) ks -> strlen k <= INT_MAX) ->
  Z.of_nat m <= INT_MAX ->
  max_key_len ks (Z.of_nat m) = Z.of_nat (Nat.max m (longest_key ks)).
Proof.
  induction ks as [|[k|] rest IH]; intros m Hk Hm; cbn [max_key_len longest_key].
  - now rewrite Nat.max_0_r.
  - assert (Hlen : strlen k <= INT_MAX) by (apply Hk; now left).
    assert (Hrest : forall k', In (Some k') rest -> strlen k' <= INT_MAX)
      by (intros k' H; apply Hk; now right).
    rewrite to_size_t_small by lia.
    unfold strlen in *.
    destruct (Z.gtb_spec (Z.of_nat (String.length k)) (Z.of_nat m)).
    + rewrite to_int_small by lia. rewrite IH by assumption. f_equal. lia.
    + rewrite IH by assumption. f_equal. lia.
  - apply IH; [|assumption]. intros k' H. apply Hk. now right.
Qed.

(** The second loop, when the width is [w] wherever there is a key
    and every line fits into an [int]. *)
Lemma format_lines_entries (width : Z) (w : nat) (ks vs : list (option string)) :
  (forall k v, In (Some k, v) (combine ks vs) -> width = Z.of_nat w) ->
  (forall e, In e (combine ks vs) -> strlen (entry_line w e) <= INT_MAX) ->
  List.length ks = List.length vs ->
  format_lines width ks vs
  = String.concat "" (map (entry_line w) (combine ks vs)).
Proof.
  revert vs; induction ks as [|key ks IH]; intros [|value vs] Hw Hfit Hlen;
    simpl in Hlen; try discriminate; [reflexivity|].
  cbn [format_lines combine map].
  assert (IH' : format_lines width ks vs
                = String.concat "" (map (entry_line w) (combine ks vs))).
  { apply IH; [| |lia].
    - intros k v H. apply (Hw k v). now right.
    - intros e H. apply Hfit. now right. }
  rewrite IH'. clear IH IH'.
  assert (Hcat : forall (x : string) (l : list string),
             x <> "" -> String.concat "" (x :: l) = x ++ String.concat "" l).
  { intros x [|y l] Hx; cbn [String.concat]; [now rewrite append_empty | reflexivity]. }
  destruct key as [k|].
  - assert (Hline : printf_star_s width k ++ " : "
                      ++ match value with Some v => v | None => "" end ++ LF
                    = entry_line w (Some k, value)).
    { rewrite (Hw k value) by now left.
      cbn [entry_line]. unfold printf_star_s.
      destruct (Z.ltb_spec (Z.of_nat w) 0); [lia|].
      now rewrite Nat2Z.id, !app_assoc_s. }
    rewrite Hline. unfold g_string_append_printf.
    destruct (Z.leb_spec (strlen (entry_line w (Some k, value))) INT_MAX) as [_|Hlong].
    + rewrite Hcat; [reflexivity|].
      cbn [entry_line]. destruct (spaces _); [destruct k|]; discriminate.
    + exfalso. specialize (Hfit (Some k, value) (or_introl eq_refl)). lia.
  - rewrite Hcat; [reflexivity | discriminate].
Qed.

Lemma in_combine_key (ks vs : list (option string)) (k : string) :
  List.length ks = List.length vs ->
  In (Some k) ks -> exists v, In (Some k, v) (combine ks vs).
Proof.
  revert vs; induction ks as [|key ks IH]; intros [|value vs] Hlen Hin;
    simpl in Hlen; try discriminate; [contradiction|].
  destruct Hin as [-> | Hin].
  - exists value. now left.
  - destruct (IH vs) as [v Hv]; [lia | exact Hin |]. exists v. now right.
Qed.

Lemma length_entry_line (w : nat) (k : string) (value : option string) :
  (String.length k <= w)%nat ->
  strlen (entry_line w (Some k, value))
  = Z.of_nat w + 4 + strlen match value with Some v => v | None => "" end.
Proof.
  intros Hk. cbn [entry_line]. unfold strlen.
  rewrite !length_app, length_spaces. cbn [String.length LF]. lia.
Qed.

Lemma run_call_lengths (b b' : EvFormatBuilder) (c : builder_call) :
  run_call b c = Ok b' ->
  List.length (keys b) = List.length (values b) ->
  List.length (keys b') = List.length (values b').
Proof.
  unfold g_ptr_array_add.
  destruct c as [i|key value|key value|key value|]; cbn [run_call];
    unfold ev_format_builder_add, ev_format_builder_add_nonnull,
      ev_format_builder_take, ev_format_builder_add_newline,
      ev_format_builder_set_indent, g_ptr_array_add;
    try (destruct key; [|discriminate]); try destruct value;
    intros [= <-] H; cbn [keys values]; rewrite ?List.length_app; cbn [List.length]; lia.
Qed.

Lemma run_call_has_key (b : EvFormatBuilder) (c : builder_call) :
  has_key c -> exists b', run_call b c = Ok b'.
Proof.
  destruct c as [i|[k|] value|[k|] [v|]|[k|] value|]; cbn [has_key run_call];
    intros H; try congruence; now eexists.
Qed.

(** X1.  Whatever calls with keys are made on a new formatter, in
    whatever order, none of them fails, the two arrays stay of one
    length, and [ev_format_builder_end] passes its assertion and
    returns a buffer. *)
Theorem format_builder_never_aborts (cs : list builder_call) :
  Forall has_key cs ->
  exists (b : EvFormatBuilder) (out : string),
    run_calls ev_format_builder_new cs = Ok b
    /\ List.length (keys b) = List.length (values b)
    /\ ev_format_builder_end b = Ok out.
Proof.
  intros Hcs.
  assert (Hgen : forall b0,
             List.length (keys b0) = List.length (values b0) ->
             exists b, run_calls b0 cs = Ok b
                       /\ List.length (keys b) = List.length (values b)).
  { induction Hcs as [|c cs Hc _ IH]; intros b0 H0.
    - now exists b0.
    - destruct (run_call_has_key b0 c Hc) as [b1 H1].
      destruct (IH b1 (run_call_lengths b0 b1 c H1 H0)) as (b & Hb & Hl).
      exists b. cbn [run_calls]. rewrite H1. now split. }
  destruct (Hgen ev_format_builder_new eq_refl) as (b & Hb & Hl).
  exists b. unfold ev_format_builder_end. rewrite Hl, Nat.eqb_refl.
  eexists. repeat split; assumption.
Qed.

Lemma format_builder_never_aborts_witness :
  exists (b : EvFormatBuilder) (out : string),
    run_calls ev_format_builder_new
      [SetIndent 4; Add (Some "Room Id") (Some "!r:e"); AddNonnull (Some "Topic") None;
       AddNewline; Take (Some "Events") (Some "3")] = Ok b
    /\ List.length (keys b) = List.length (values b)
    /\ ev_format_builder_end b = Ok out.
Proof.
  apply format_builder_never_aborts.
  repeat constructor; discriminate.
Defined.

(** [ev_format_builder_end] on arrays of one length, when every line
    fits into an [int]. *)
Lemma ev_format_builder_end_entries (b : EvFormatBuilder) :
  List.length (keys b) = List.length (values b) ->
  0 <= indent b ->
  (forall e, In e (combine (keys b) (values b)) ->
     strlen (entry_line (longest_key (keys b) + Z.to_nat (indent b)) e) <= INT_MAX) ->
  ev_format_builder_end b
  = Ok (String.concat ""
          (map (entry_line (longest_key (keys b) + Z.to_nat (indent b)))
               (combine (keys b) (values b)))).
Proof.
  intros Hlen Hind Hfit.
  set (w := (longest_key (keys b) + Z.to_nat (indent b))%nat) in *.
  assert (Hw : forall k v, In (Some k, v) (combine (keys b) (values b)) ->
                 Z.of_nat w + 4 <= INT_MAX /\ (String.length k <= w)%nat).
  { intros k v H.
    assert (Hkw : (String.length k <= w)%nat).
    { pose proof (longest_key_bound _ _ (in_combine_l _ _ _ _ H)). unfold w. lia. }
    specialize (Hfit _ H). rewrite (length_entry_line w k v Hkw) in Hfit.
    unfold strlen in Hfit. split; [lia | exact Hkw]. }
  assert (Hk : forall k, In (Some k) (keys b) -> strlen k <= INT_MAX).
  { intros k H. destruct (in_combine_key _ _ k Hlen H) as [v Hv].
    destruct (Hw k v Hv). unfold strlen. lia. }
  unfold ev_format_builder_end. rewrite Hlen, Nat.eqb_refl. cbn [negb].
  change 0 with (Z.of_nat 0) at 1.
  rewrite (max_key_len_longest (keys b) 0 Hk) by (unfold INT_MAX; lia).
  cbn [Nat.max].
  f_equal. apply format_lines_entries; [|exact Hfit|exact Hlen].
  intros k v H. destruct (Hw k v H) as [Hsum _].
  replace (Z.of_nat (longest_key (keys b)) + indent b) with (Z.of_nat w)
    by (unfold w; lia).
  apply to_int_small. lia.
Qed.

(** X2.  [ev_format_builder_end] puts the colons in one column: with
    an indent that is not negative and small enough for every line,
    padded to the longest key plus the indent, to fit into an [int]
    (so that the sum of the two [int]s stays in range and the
    formatting succeeds), every key is padded on the left to the
    length of the longest key plus the indent, an empty line stands
    for a NULL key, and a NULL value is printed as the empty string. *)
Theorem format_builder_aligned (b : EvFormatBuilder) :
  List.length (keys b) = List.length (values b) ->
  0 <= indent b ->
  let w := (longest_key (keys b) + Z.to_nat (indent b))%nat in
  (forall e, In e (combine (keys b) (values b)) ->
     strlen (entry_line w e) <= INT_MAX) ->
  ev_format_builder_end b
  = Ok (String.concat "" (map (entry_line w) (combine (keys b) (values b))))
  /\ forall k, In (Some k) (keys b) ->
       String.length (spaces (w - String.length k) ++ k) = w.
Proof.
  intros Hlen Hind w Hfit. split.
  - now apply ev_format_builder_end_entries.
  - intros k H. pose proof (longest_key_bound _ _ H).
    rewrite length_app, length_spaces. unfold w. lia.
Qed.

Lemma g_string_append_printf_long (text : string) :
  INT_MAX < strlen text -> g_string_append_printf text = "".
Proof.
  intros H. unfold g_string_append_printf.
  destruct (Z.leb_spec (strlen text) INT_MAX); [lia | reflexivity].
Qed.

Lemma strlen_left_justified (width : Z) (s : string) :
  width < 0 -> - width <= strlen (printf_star_s width s).
Proof.
  intros H. unfold printf_star_s.
  destruct (Z.ltb_spec width 0); [|lia].
  unfold strlen. rewrite length_app, length_spaces. lia.
Qed.

(** With an indent of [INT_MAX] the sum leaves the range of [int]:
    the width wraps around to [INT_MIN], the formatting of the line
    fails, and the buffer stays empty. *)
Example format_builder_indent_overflow :
  ev_format_builder_end
    {| indent := INT_MAX; keys := [Some "a"]; values := [Some "x"] |}
  = Ok "".
Proof.
  assert (Hlong : INT_MAX < strlen (printf_star_s (- 2 ^ 31) "a" ++ " : " ++ "x" ++ LF)).
  { pose proof (strlen_left_justified (- 2 ^ 31) "a") as H.
    unfold strlen in *. rewrite length_app. unfold INT_MAX. lia. }
  pose proof (g_string_append_printf_long _ Hlong) as E.
  unfold ev_format_builder_end. cbn [keys values indent List.length Nat.eqb negb].
  change (to_int (max_key_len [Some "a"] 0 + INT_MAX)) with (- 2 ^ 31).
  cbn [format_lines].
  exact (f_equal (fun t => Ok (t ++ "")) E).
Qed.

Lemma format_builder_aligned_witness :
  ev_format_builder_end
    {| indent := 2; keys := [Some "Name"; None; Some "Room Id"];
       values := [Some "x"; None; None] |}
  = Ok ("     Name : x" ++ LF ++ LF ++ "  Room Id : " ++ LF).
Proof.
  refine (proj1 (format_builder_aligned
                   {| indent := 2; keys := [Some "Name"; None; Some "Room Id"];
                      values := [Some "x"; None; None] |} eq_refl _ _)).
  - cbn; lia.
  - intros e [<-|[<-|[<-|[]]]]; unfold strlen, INT_MAX; simpl; lia.
Defined.

End Formatter.

(** ** The help *)

Section Help.

Lemma add_summaries_arrays (cmds : list EvCmd) : forall b : EvFormatBuilder,
  add_summaries cmds b
  = Ok {| indent := indent b;
          keys := (keys b ++ map (fun c => Some (name c)) cmds)%list;
          values := (values b ++ map (fun c => Some (help_summary c)) cmds)%list |}.
Proof.
  induction cmds as [|c rest IH]; intros b; cbn [add_summaries map].
  - rewrite !app_nil_r. now destruct b.
  - cbn [ev_format_builder_add bind]. rewrite IH. cbn [indent keys values].
    unfold g_ptr_array_add. now rewrite <- !app_assoc.
Qed.

Lemma longest_key_names (cmds : list EvCmd) :
  longest_key (map (fun c => Some (name c)) cmds) = longest_name cmds.
Proof.
  induction cmds as [|c rest IH]; cbn [map longest_key longest_name];
    [reflexivity | now rewrite IH].
Qed.

Lemma combine_maps {A B C : Type} (f : A -> B) (g : A -> C) (l : list A) :
  combine (map f l) (map g l) = map (fun x => (f x, g x)) l.
Proof. induction l as [|x l IH]; simpl; [reflexivity | now rewrite IH]. Qed.

(** X3.  [help] without an argument lists every registered command
    once, in registration order, one line each: the name padded on the
    left to the longest name plus four, a colon, the summary.  Every
    such line is to fit into an [int], as the formatter needs it. *)
Theorem help_lists_every_command (cmds : list EvCmd) (args : option (list string)) :
  args = None \/ args = Some [] ->
  (forall c, In c cmds ->
     strlen (summary_line (longest_name cmds + 4) c) <= INT_MAX) ->
  ev_prompt_print_help cmds args
  = Ok (String.concat "" (map (summary_line (longest_name cmds + 4)) cmds)).
Proof.
  intros Hargs Hlen.
  assert (Hbody : ev_prompt_print_help cmds args
                  = (b <- add_summaries cmds
                            (ev_format_builder_set_indent ev_format_builder_new INFO_INDENT) ;;
                     ev_format_builder_end b))
    by (destruct Hargs as [-> | ->]; reflexivity).
  rewrite Hbody, add_summaries_arrays. cbn [bind].
  unfold ev_format_builder_set_indent, ev_format_builder_new.
  cbn [indent keys values app].
  rewrite ev_format_builder_end_entries; cbn [indent keys values].
  - rewrite longest_key_names, combine_maps, map_map. reflexivity.
  - now rewrite !length_map.
  - unfold INFO_INDENT. lia.
  - rewrite longest_key_names, combine_maps. intros e Hin.
    apply in_map_iff in Hin as (c & <- & Hc). exact (Hlen c Hc).
Qed.

Lemma help_lists_every_command_witness :
  ev_prompt_print_help prompt_only (Some [])
  = Ok ("       help : Show this help" ++ LF
        ++ "    history : Print command history" ++ LF
        ++ "       quit : Quit the application" ++ LF).
Proof.
  refine (help_lists_every_command prompt_only (Some []) (or_intror eq_refl) _).
  intros c [<-|[<-|[<-|[]]]]; unfold strlen, INT_MAX; simpl; lia.
Defined.

Lemma opt_lines_described (os : list EvCmdOpt) (width : Z) :
  (forall o, In o os -> opt_name o <> None -> desc o <> None) ->
  exists lines, opt_lines os width = Ok lines.
Proof.
  induction os as [|o rest IH]; intros Hd; cbn [opt_lines]; [now eexists|].
  destruct (opt_name o) as [n|] eqn:Hn; [|now eexists].
  destruct (desc o) as [d|] eqn:Hdesc.
  - destruct IH as [lines ->]; [intros o' H; apply Hd; now right|].
    cbn [bind]. now eexists.
  - exfalso. apply (Hd o); [now left | congruence | exact Hdesc].
Qed.

Lemma ev_cmds_get_loop_in (cmds : list EvCmd) (nm : string) (c : EvCmd) :
  ev_cmds_get_loop cmds nm = Some c -> In c cmds /\ name c = nm.
Proof.
  induction cmds as [|c' rest IH]; cbn [ev_cmds_get_loop]; [discriminate|].
  unfold g_str_equal. destruct (String.eqb_spec nm (name c')) as [E|_].
  - intros [= <-]. split; [now left | now symmetry].
  - intros H. destruct (IH H). split; [now right | assumption].
Qed.

(** X4.  [help] with an argument always returns a buffer that is not
    empty, so that [run_command] prints it as normal output, without
    the colour of an error; for a name that no registered command has
    the buffer is the unknown-command message. *)
Theorem help_always_answers (cmds : list EvCmd) (nm : string) (more : list string) :
  described cmds ->
  exists out : string,
    ev_prompt_print_help cmds (Some (nm :: more)) = Ok out
    /\ render {| h_out := Some out; h_err := None |} = [Print (LF ++ out ++ LF)]
    /\ (ev_cmds_get cmds (Some nm) = None -> out = "Unknown command " ++ nm ++ LF).
Proof.
  intros Hd.
  assert (Hrender : forall out, out <> "" ->
             render {| h_out := Some out; h_err := None |} = [Print (LF ++ out ++ LF)]).
  { intros out Hne. unfold render. cbn [h_out].
    destruct out; [congruence | reflexivity]. }
  cbn [ev_prompt_print_help].
  destruct (ev_cmds_get cmds (Some nm)) as [cmd|] eqn:Hget.
  - destruct (ev_cmds_get_loop_in cmds nm cmd Hget) as [Hin _].
    destruct (opts cmd) as [os|] eqn:Hos.
    + destruct (opt_lines_described os (max_opt_len os 0 + 4)) as [lines ->].
      { intros o Ho. exact (Hd cmd os o Hin Hos Ho). }
      cbn [bind]. eexists. split; [reflexivity|]. split; [|discriminate].
      apply Hrender. discriminate.
    + eexists. split; [reflexivity|]. split; [|discriminate].
      apply Hrender. discriminate.
  - eexists. split; [reflexivity|]. split; [|reflexivity].
    apply Hrender. discriminate.
Qed.

Lemma help_always_answers_witness :
  exists out : string,
    ev_prompt_print_help full_registry (Some ["bogus"]) = Ok out
    /\ render {| h_out := Some out; h_err := None |} = [Print (LF ++ out ++ LF)]
    /\ (ev_cmds_get full_registry (Some "bogus") = None
        -> out = "Unknown command bogus" ++ LF).
Proof.
  apply help_always_answers.
  intros c os o Hc Hos Ho Hn.
  repeat (destruct Hc as [<-|Hc];
          [cbn in Hos; try discriminate; injection Hos as <-;
           repeat (destruct Ho as [<-|Ho]; [cbn in Hn |- *; congruence|]);
           destruct Ho|]).
  destruct Hc.
Defined.

Example help_room_get_event :
  ev_prompt_print_help full_registry (Some ["room-get-event"])
  = Ok ("  room-get-event - Get the given event from the server" ++ LF ++ LF
        ++ "  Usage:" ++ LF
        ++ "    /room-get-event room-id event-id" ++ LF
        ++ "     room-id : The id of the room to get the event for" ++ LF
        ++ "    event-id : The id of the event to get" ++ LF ++ LF).
Proof. reflexivity. Qed.

Example help_help :
  ev_prompt_print_help prompt_only (Some ["help"])
  = Ok ("  help - Show this help" ++ LF ++ LF
        ++ "  Usage:" ++ LF
        ++ "    /help [command]" ++ LF
        ++ "    command : The command to print help for" ++ LF ++ LF).
Proof. reflexivity. Qed.

End Help.

(** ** Completion and dispatch together *)

Section CompletionAndDispatch.

Lemma code_nul (c : ascii) : (c =? "000")%char = false -> code c <> 0.
Proof.
  intros Hc E. apply Ascii.eqb_neq in Hc. apply Hc.
  apply code_inj. rewrite E. reflexivity.
Qed.

(** Without the test of the length, [strncmp] over the typed
    characters is still a prefix test, as the word has no NUL. *)
Lemma strncmp_prefix_nul_free (n : nat) : forall nm word : string,
  (n <= String.length word)%nat ->
  nul_free word = true ->
  (strncmp nm word (Z.of_nat n) =? 0) = prefix (take n word) nm.
Proof.
  induction n as [|n IH]; intros nm word Hn Hnul.
  - rewrite strncmp_zero by reflexivity. now destruct word, nm.
  - destruct word as [|c2 w]; simpl in Hn; [lia|].
    cbn [nul_free] in Hnul. apply andb_prop in Hnul as [Hc2 Hw].
    apply negb_true_iff in Hc2.
    destruct nm as [|c1 t1].
    + cbn [strncmp take prefix].
      destruct (Z.leb_spec (Z.of_nat (S n)) 0); [lia|].
      pose proof (code_nul c2 Hc2).
      destruct (Z.eqb_spec (- code c2) 0); [lia | reflexivity].
    + cbn [strncmp take prefix].
      destruct (Z.leb_spec (Z.of_nat (S n)) 0); [lia|].
      replace (Z.of_nat (S n) - 1) with (Z.of_nat n) by lia.
      destruct (ascii_dec c2 c1) as [->|Hne].
      * rewrite Ascii.eqb_refl. apply IH; [lia | exact Hw].
      * destruct (Ascii.eqb_spec c1 c2) as [->|Hne']; [congruence|].
        assert (code c1 - code c2 <> 0).
        { intros E. apply Hne'. apply code_inj. lia. }
        destruct (Z.eqb_spec (code c1 - code c2) 0); [lia | reflexivity].
Qed.

(** X5.  The completer of the argument of [help] returns the names of
    the registered commands, without the marker, that have the typed
    characters as a prefix, in registration order. *)
Theorem help_completer_candidates (statics : Statics) (word : string) (pos : Z) :
  nul_free word = true ->
  0 <= pos <= strlen word ->
  pos <= INT_MAX ->
  help_command_opt_get_completion statics word pos
  = Some (filter (fun n => prefix (take (Z.to_nat pos) word) n) (s_names statics)).
Proof.
  intros Hnul [Hlo Hhi] Hint. unfold help_command_opt_get_completion. f_equal.
  rewrite to_size_t_small by lia.
  apply filter_ext. intros nm.
  replace pos with (Z.of_nat (Z.to_nat pos)) at 1 by lia.
  apply strncmp_prefix_nul_free; [|exact Hnul].
  unfold strlen in Hhi. lia.
Qed.

Lemma help_completer_candidates_witness :
  help_command_opt_get_completion
    (statics_of (typing prompt_only fresh_hist "/help h" 7)) "h" 1
  = Some ["help"; "history"].
Proof.
  refine (help_completer_candidates
            (statics_of (typing prompt_only fresh_hist "/help h" 7)) "h" 1 eq_refl _ _).
  - unfold strlen; simpl; lia.
  - unfold INT_MAX; lia.
Defined.

Lemma complete_command_loop_names (cmds : list EvCmd) (word : string) (pos : Z)
    (candidate : string) :
  In candidate (complete_command_loop cmds word pos) ->
  exists c, In c cmds /\ candidate = "/" ++ name c.
Proof.
  induction cmds as [|c rest IH]; cbn [complete_command_loop]; [contradiction|].
  intros H.
  assert (Hrest : In candidate (complete_command_loop rest word pos) ->
                  exists c0, In c0 (c :: rest) /\ candidate = "/" ++ name c0).
  { intros H'. destruct (IH H') as (c0 & Hin & E). exists c0. split; [now right | exact E]. }
  destruct (to_size_t pos >? strlen (name c)); [now apply Hrest|].
  destruct (strncmp (name c) word (to_size_t pos) =? 0); [|now apply Hrest].
  destruct H as [<-|H]; [|now apply Hrest].
  exists c. split; [now left | reflexivity].
Qed.

Lemma ev_cmds_get_loop_registered (cmds : list EvCmd) (c : EvCmd) :
  In c cmds ->
  exists first, ev_cmds_get_loop cmds (name c) = Some first /\ name first = name c.
Proof.
  induction cmds as [|c' rest IH]; [contradiction|].
  intros Hin. cbn [ev_cmds_get_loop]. unfold g_str_equal.
  destruct (String.eqb_spec (name c) (name c')) as [E|Hne].
  - exists c'. split; [reflexivity | now symmetry].
  - destruct Hin as [->|Hin]; [congruence | now apply IH].
Qed.

(** X6.  A candidate of the command completion is never an unknown
    command: it is the marker followed by a registered name, and a
    line that begins with it is dispatched to the handler of the
    first command of that name. *)
Theorem completed_command_is_known (st : Session) (word : string) (pos : Z)
    (cs : list string) (candidate : string) :
  complete_command (commands st) word pos = Some cs ->
  In candidate cs ->
  exists cmd : EvCmd,
    candidate = "/" ++ name cmd
    /\ ev_cmds_get (commands st) (Some (name cmd)) = Some cmd
    /\ forall args,
         run_command st (candidate :: args)
         = Ok (CallHandler cmd args :: render (func cmd (statics_of st) args)).
Proof.
  unfold complete_command.
  destruct (negb (starts_with_slash word)); [discriminate|].
  intros [= <-] Hin.
  destruct (complete_command_loop_names _ _ _ _ Hin) as (c & Hc & ->).
  destruct (ev_cmds_get_loop_registered _ _ Hc) as (first & Hget & Hname).
  exists first. rewrite Hname. split; [reflexivity|]. split; [exact Hget|].
  intros args. change ("/" ++ name c) with (String "/" (name c)).
  rewrite run_command_marker. f_equal.
  apply run_command_loop_found. now rewrite <- ev_cmds_get_loop_find.
Qed.

Lemma completed_command_is_known_witness :
  exists cmd : EvCmd,
    "/help" = "/" ++ name cmd
    /\ ev_cmds_get prompt_only (Some (name cmd)) = Some cmd
    /\ forall args,
         run_command (typing prompt_only fresh_hist "/he" 3) ("/help" :: args)
         = Ok (CallHandler cmd args
                 :: render (func cmd (statics_of (typing prompt_only fresh_hist "/he" 3)) args)).
Proof.
  refine (completed_command_is_known (typing prompt_only fresh_hist "/he" 3)
            "/he" 3 ["/help"] "/help" eq_refl _).
  now left.
Defined.

End CompletionAndDispatch.

(** ** What Tab leaves alone *)

Section Frames.

Lemma print_or_insert_line (e : EditLine) (completions : option (list string))
    (pos : Z) (ret : CC) (e' : EditLine) (evs : list event) :
  cursor_in_line e ->
  print_or_insert_completions e completions pos = Ok (ret, e', evs) ->
  (e' = e /\ ret <> CC_REFRESH)
  \/ (exists ins, ins <> "" /\ ret = CC_REFRESH /\ evs = []
                  /\ el_line e' = insert_at (el_line e) ins).
Proof.
  intros Hcur. unfold print_or_insert_completions.
  destruct completions as [[|c [|c' cs]]|].
  - intros [= <- <- _]. left. split; [reflexivity | discriminate].
  - destruct (from c pos) as [suffix|]; [|discriminate].
    destruct suffix as [|a t].
    + cbn [el_insertstr]. intros [= <- <- _]. left. split; [reflexivity | discriminate].
    + rewrite el_insertstr_nonempty by discriminate.
      rewrite el_insertstr_nonempty by discriminate.
      intros [= <- <- <-]. right. exists (String a t ++ " ").
      repeat split; [discriminate|].
      cbn [el_line]. now apply insert_at_twice.
  - intros [= <- <- _]. left. split; [reflexivity | discriminate].
  - intros [= <- <- _]. left. split; [reflexivity | discriminate].
Qed.

Lemma complete_tokens_line (st : Session) (av : list string) (cc co : Z)
    (ret : CC) (st' : Session) (evs : list event) :
  cursor_in_line (el st) ->
  complete_tokens st av cc co = Ok (ret, st', evs) ->
  (st' = st /\ ret <> CC_REFRESH)
  \/ (exists ins, ins <> "" /\ ret = CC_REFRESH
                  /\ el_line (el st') = insert_at (el_line (el st)) ins).
Proof.
  intros Hcur. unfold complete_tokens.
  assert (Hpi : forall completions evs0 r,
             print_or_insert_completions (el st) completions co = Ok r ->
             (let '(ret0, e, evs1) := r in Ok (ret0, with_el st e, (evs0 ++ evs1)%list))
             = Ok (ret, st', evs) ->
             (st' = st /\ ret <> CC_REFRESH)
             \/ (exists ins, ins <> "" /\ ret = CC_REFRESH
                             /\ el_line (el st') = insert_at (el_line (el st)) ins)).
  { intros completions evs0 [[r e] ev] Hp [= <- <- _].
    destruct (print_or_insert_line _ _ _ _ _ _ Hcur Hp) as [[-> Hne]|(ins & H1 & H2 & _ & H4)].
    - left. split; [apply with_el_same | exact Hne].
    - right. exists ins. repeat split; assumption. }
  destruct ((Z.of_nat (List.length av) <? 2) && (cc =? 0)).
  - destruct (match_word av cc) as [word| |]; cbn [bind]; try discriminate.
    destruct (print_or_insert_completions _ _ _) as [r| |] eqn:Hp;
      cbn [bind]; try discriminate.
    intros H. apply (Hpi _ [] r Hp). now destruct r as [[? ?] ?].
  - destruct ((Z.of_nat (List.length av) =? 0) || (cc =? 0)).
    + intros [= <- <- _]. left. split; [reflexivity | discriminate].
    + destruct (skip_marker av) as [nm| |]; cbn [bind]; try discriminate.
      destruct (ev_cmd_get_opt _ _ _) as [opt|];
        [|intros [= <- <- _]; left; split; [reflexivity | discriminate]].
      destruct (completer opt) as [f|];
        [|intros [= <- <- _]; left; split; [reflexivity | discriminate]].
      destruct (match_word av cc) as [word| |]; cbn [bind]; try discriminate.
      destruct (print_or_insert_completions _ _ _) as [r| |] eqn:Hp;
        cbn [bind]; try discriminate.
      intros H. apply (Hpi _ [CallCompleter opt word co] r Hp).
      now destruct r as [[? ?] ?].
Qed.

(** X8.  Tab never loses what is typed: when [complete] returns, the
    history and the registry are as before, and either nothing at all
    has changed, or the return value is [CC_REFRESH] and a text that
    is not empty has been put in at the cursor, with everything in
    front of and behind the cursor as it was and the cursor inside the
    line. *)
Theorem tab_keeps_the_line (st : Session) (ret : CC) (st' : Session)
    (evs : list event) :
  cursor_in_line (el st) ->
  complete st = Ok (ret, st', evs) ->
  let li := el_line (el st) in
  let li' := el_line (el st') in
  hist st' = hist st
  /\ commands st' = commands st
  /\ cursor_in_line (el st')
  /\ take (cursor li) (buffer li') = take (cursor li) (buffer li)
  /\ skip (cursor li') (buffer li') = skip (cursor li) (buffer li)
  /\ ((st' = st /\ ret <> CC_REFRESH)
      \/ (ret = CC_REFRESH /\ (cursor li < cursor li')%nat)).
Proof.
  intros Hcur Hc li li'.
  destruct (complete_frame _ _ _ _ Hc) as [Hh Hcmds].
  split; [exact Hh|]. split; [exact Hcmds|].
  assert (Hline : (st' = st /\ ret <> CC_REFRESH)
                  \/ (exists ins, ins <> "" /\ ret = CC_REFRESH
                                  /\ li' = insert_at li ins)).
  { unfold complete in Hc. destruct (tok_line _) as [|code| |av cc co].
    - injection Hc as <- <- _. left. split; [reflexivity | discriminate].
    - exact (complete_tokens_line _ _ _ _ _ _ _ Hcur Hc).
    - discriminate.
    - exact (complete_tokens_line _ _ _ _ _ _ _ Hcur Hc). }
  destruct Hline as [[-> Hne]|(ins & Hins & -> & E)].
  - repeat split; try assumption; try reflexivity. now left.
  - unfold cursor_in_line in *. fold li li' in Hcur |- *. rewrite E.
    destruct (insert_at_frame li ins Hcur) as [Hf1 Hf2].
    assert (Hlen : (0 < String.length ins)%nat) by (destruct ins; [congruence | simpl; lia]).
    repeat split; try assumption.
    + unfold insert_at. cbn [buffer cursor].
      rewrite !length_app, length_take, length_skip by exact Hcur. lia.
    + right. split; [reflexivity|]. unfold insert_at. cbn [cursor]. lia.
Qed.

Lemma tab_keeps_the_line_witness :
  let st := typing prompt_only fresh_hist "/hexx" 3 in
  let st' := with_el st {| el_line := {| buffer := "/help xx"; cursor := 6 |} |} in
  hist st' = hist st
  /\ commands st' = commands st
  /\ cursor_in_line (el st')
  /\ take 3 "/help xx" = take 3 "/hexx"
  /\ skip 6 "/help xx" = skip 3 "/hexx"
  /\ ((st' = st /\ CC_REFRESH <> CC_REFRESH) \/ (CC_REFRESH = CC_REFRESH /\ (3 < 6)%nat)).
Proof.
  intros st st'.
  refine (tab_keeps_the_line st CC_REFRESH st' [] _ _).
  - unfold cursor_in_line; simpl; lia.
  - reflexivity.
Defined.

End Frames.

(** ** The listing of the history and its file *)

Section HistoryListing.

Lemma concat_cons (x : string) (l : list string) :
  String.concat "" (x :: l) = x ++ String.concat "" l.
Proof. destruct l; cbn [String.concat]; [now rewrite append_empty | reflexivity]. Qed.

Lemma concat_app (l1 l2 : list string) :
  String.concat "" (l1 ++ l2) = String.concat "" l1 ++ String.concat "" l2.
Proof.
  induction l1 as [|x l1 IH]; [reflexivity|].
  cbn [app]. now rewrite !concat_cons, IH, app_assoc_s.
Qed.

(** X9.  [history] lists the events from the oldest to the most
    recent, and as the line is entered before it is dispatched, the
    listing ends with the line that asked for it. *)
Theorem history_lists_itself (st : Session) (c : EvCmd) (rest : list string)
    (cc co : Z) :
  submitted (buffer (el_line (el st))) ->
  tok_line (el_line (el st)) = TokOk ("/history" :: rest) cc co ->
  find (fun c => String.eqb "history" (name c)) (commands st) = Some c ->
  func c = ev_prompt_print_history ->
  0 < h_max (hist st) ->
  let buf := buffer (el_line (el st)) in
  let h' := history_enter (hist st) buf in
  let listing := String.concat "" (map history_line (rev (h_events h'))) in
  on_stdin_ready st
  = Ok (reset (with_hist st h'), [CallHandler c rest; Print (LF ++ listing ++ LF)])
  /\ exists (older : list HistEvent) (e : HistEvent),
       h_events h' = e :: older
       /\ str e = buf
       /\ listing = String.concat "" (map history_line (rev older)) ++ history_line e.
Proof.
  intros Hs Ht Hfind Hfunc Hmax buf h' listing.
  pose proof (tok_line_token_long _ _ _ _ _ Hs Ht) as Hlong.
  assert (Hrec : recorded st = with_hist st h').
  { unfold recorded. destruct (Z.ltb_spec 1 (strlen (buffer (el_line (el st)))));
      [reflexivity | lia]. }
  pose proof (history_enter_head (hist st) buf Hmax) as Hhead.
  fold h' in Hhead. unfold h_strs in Hhead.
  destruct (h_events h') as [|e older] eqn:He; [discriminate|].
  cbn [map hd_error] in Hhead. injection Hhead as Hstr.
  assert (Hlist : listing
                  = String.concat "" (map history_line (rev older)) ++ history_line e).
  { unfold listing. rewrite ?He. cbn [rev]. rewrite map_app, concat_app.
    cbn [map]. now rewrite concat_cons, append_empty. }
  split.
  - rewrite (on_stdin_ready_submitted st _ cc co Hs Ht).
    change (starts_with_slash "/history") with true. cbn iota.
    change ("/history" :: rest) with (String "/" "history" :: rest).
    rewrite run_command_marker, Hrec. cbn [bind]. do 2 f_equal.
    rewrite (run_command_loop_found _ _ _ _ c Hfind), Hfunc. f_equal.
    unfold ev_prompt_print_history, render. cbn [h_out statics_of s_hist hist with_hist].
    unfold history_walk. fold history_line. fold h'. rewrite ?He.
    assert (Hl : String.concat "" (map history_line (rev (e :: older))) = listing)
      by (unfold listing; now rewrite ?He).
    rewrite Hl.
    assert (Hne : (0 <? strlen listing) = true).
    { apply Z.ltb_lt. rewrite Hlist. unfold strlen, history_line.
      rewrite !length_app. cbn [String.length]. lia. }
    now rewrite Hne.
  - exists older, e. repeat split; assumption.
Qed.

Lemma history_lists_itself_witness :
  exists c : EvCmd,
    on_stdin_ready
      (typing prompt_registry (history_enter fresh_hist ("/help" ++ LF)) ("/history" ++ LF) 8)
    = Ok (reset (with_hist
                   (typing prompt_registry (history_enter fresh_hist ("/help" ++ LF))
                      ("/history" ++ LF) 8)
                   (history_enter (history_enter fresh_hist ("/help" ++ LF))
                      ("/history" ++ LF))),
          [CallHandler c [];
           Print (LF ++ ("   1 /help" ++ LF ++ "   2 /history" ++ LF) ++ LF)]).
Proof.
  eexists.
  refine (proj1 (history_lists_itself
                   (typing prompt_registry (history_enter fresh_hist ("/help" ++ LF))
                      ("/history" ++ LF) 8)
                   _ [] 0 8 eq_refl eq_refl eq_refl eq_refl eq_refl)).
Defined.

Lemma no_adjacent_dup_firstn (n : nat) : forall l : list string,
  no_adjacent_dup l -> no_adjacent_dup (firstn n l).
Proof.
  induction n as [|n IH]; intros [|a l] H; cbn [firstn]; try exact I.
  cbn [no_adjacent_dup] in H |- *. destruct H as [Ha Hl]. split; [|now apply IH].
  destruct l as [|b l]; [now destruct n|].
  destruct n; [exact I | exact Ha].
Qed.

Lemma no_adjacent_dup_app_r (l1 l2 : list string) :
  no_adjacent_dup (l1 ++ l2) -> no_adjacent_dup l2.
Proof.
  induction l1 as [|a l1 IH]; [trivial|].
  cbn [app no_adjacent_dup]. intros [_ H]. now apply IH.
Qed.

Lemma is_dup_false_head (h : History) (s : string) :
  h_unique h = true -> is_dup h s = false ->
  match h_strs h with
  | b :: _ => s <> b
  | [] => True
  end.
Proof.
  unfold is_dup, h_strs. intros ->.
  destruct (h_events h) as [|e l]; [intros _; exact I|].
  simpl. intros H E. apply String.eqb_neq in H. congruence.
Qed.

Lemma no_adjacent_dup_enter (h : History) (s : string) :
  configured h -> no_adjacent_dup (h_strs h) ->
  no_adjacent_dup (h_strs (history_enter h s)).
Proof.
  intros (Hm & Hu & Hl) Hnad. destruct (is_dup h s) eqn:Hd.
  - now rewrite history_enter_dup.
  - destruct (history_enter_new h s Hd) as [-> _]; [rewrite Hm; unfold HISTORY_SIZE; lia|].
    apply no_adjacent_dup_firstn. cbn [no_adjacent_dup]. split; [|exact Hnad].
    exact (is_dup_false_head h s Hu Hd).
Qed.

Lemma no_adjacent_dup_load (lines : list string) : forall h : History,
  configured h -> no_adjacent_dup (h_strs h) ->
  no_adjacent_dup (h_strs (history_load h lines)).
Proof.
  unfold history_load.
  induction lines as [|s lines IH]; intros h Hc Hn; [exact Hn|].
  cbn [fold_left]. apply IH; [now apply configured_enter | now apply no_adjacent_dup_enter].
Qed.

(** In a session no two neighbours of the history are the same
    line. *)
Lemma reachable_no_adjacent_dup (st : Session) :
  reachable st -> no_adjacent_dup (h_strs (hist st)).
Proof.
  induction 1 as [cmds file st Hi | st e _ IH | st ret st' evs Hst IH Hc
                  | st st' evs Hst IH Hr].
  - unfold ev_prompt_init in Hi. injection Hi as <-. cbn [hist].
    destruct file as [lines|]; [|exact I].
    apply no_adjacent_dup_load; [apply configured_fresh | exact I].
  - exact IH.
  - destruct (complete_frame _ _ _ _ Hc) as [-> _]. exact IH.
  - destruct (on_stdin_ready_history _ _ _ Hr) as [-> | [_ ->]]; [exact IH|].
    apply no_adjacent_dup_enter; [now apply reachable_configured | exact IH].
Qed.

(** Loading lines that fit and have no equal neighbours enters them
    all. *)
Lemma history_load_all (lines : list string) : forall h : History,
  configured h ->
  no_adjacent_dup (rev lines ++ h_strs h) ->
  (List.length lines + List.length (h_strs h) <= 100)%nat ->
  h_strs (history_load h lines) = (rev lines ++ h_strs h)%list.
Proof.
  unfold history_load.
  induction lines as [|x lines IH]; intros h Hc Hn Hlen; [reflexivity|].
  cbn [fold_left rev] in *. rewrite <- app_assoc in Hn |- *. cbn [app] in Hn |- *.
  destruct Hc as (Hm & Hu & Hl).
  assert (Hx : h_strs (history_enter h x) = x :: h_strs h).
  { assert (Hd : is_dup h x = false).
    { destruct (is_dup h x) eqn:Hd; [|reflexivity]. exfalso.
      apply (is_dup_head h x Hu) in Hd.
      apply no_adjacent_dup_app_r in Hn. cbn [no_adjacent_dup] in Hn.
      destruct (h_strs h) as [|b l]; [discriminate|].
      cbn [hd_error] in Hd. injection Hd as ->. now destruct Hn. }
    destruct (history_enter_new h x Hd) as [-> _]; [rewrite Hm; unfold HISTORY_SIZE; lia|].
    rewrite Hm. apply firstn_all2. cbn [List.length] in *. unfold HISTORY_SIZE.
    change (Z.to_nat 100) with 100%nat. lia. }
  rewrite IH.
  - now rewrite Hx.
  - apply configured_enter. now repeat split.
  - now rewrite Hx.
  - rewrite Hx. cbn [List.length] in *. lia.
Qed.

(** X10.  What [ev_prompt_destroy] saves is what the next
    [ev_prompt_init] loads: after the end of a session and a new
    start the history holds the same lines in the same order (the
    events are numbered anew). *)
Theorem history_survives_restart (st : Session) (commands_ : list EvCmd) :
  reachable st ->
  let '(file, old) := ev_prompt_destroy st in
  exists st' : Session,
    ev_prompt_init old commands_ (Some file) = Ok st'
    /\ commands st' = commands_
    /\ h_strs (hist st') = h_strs (hist st).
Proof.
  intros Hst. cbn [ev_prompt_destroy]. eexists. split; [reflexivity|].
  split; [reflexivity|]. cbn [hist].
  destruct (reachable_configured st Hst) as (_ & _ & Hl).
  pose proof (reachable_no_adjacent_dup st Hst) as Hn.
  assert (Hlen : List.length (h_strs (hist st)) = List.length (h_events (hist st)))
    by (unfold h_strs; apply length_map).
  unfold history_save. rewrite history_load_all.
  - rewrite rev_involutive. apply app_nil_r.
  - apply configured_fresh.
  - rewrite rev_involutive. cbn [h_strs h_events map]. now rewrite app_nil_r.
  - rewrite length_rev, Hlen. cbn. unfold HISTORY_SIZE in Hl.
    change (Z.to_nat 100) with 100%nat in Hl. lia.
Qed.

Lemma history_survives_restart_witness :
  let st := enter_line (enter_line started ("/a" ++ LF)) ("/b" ++ LF) in
  exists st' : Session,
    ev_prompt_init None prompt_only (Some ["/a" ++ LF; "/b" ++ LF]) = Ok st'
    /\ commands st' = prompt_only
    /\ h_strs (hist st') = h_strs (hist st).
Proof.
  intros st.
  refine (history_survives_restart st prompt_only _).
  apply reachable_enter_line, reachable_enter_line, reachable_started.
Defined.

End HistoryListing.

(** ** A line with an open quote *)

Section OpenQuote.

Lemma tok_char_unquoted (t : Tokenizer) (c : ascii) :
  unquoted c = true -> t_quote t = Q_none ->
  exists t', tok_char t c = inl t' /\ t_quote t' = Q_none.
Proof.
  unfold unquoted. intros Hp Hq. apply negb_true_iff in Hp.
  repeat match goal with
         | H : (_ || _) = false |- _ => apply orb_false_iff in H; destruct H
         end.
  unfold tok_char. rewrite Hq.
  repeat match goal with H : Ascii.eqb _ _ = false |- _ => rewrite H; clear H end.
  destruct (is_ifs c); eexists; split; reflexivity.
Qed.

(** Text without quotes leaves the tokenizer outside of a quote. *)
Lemma tok_scan_unquoted (p rest : string) :
  forall (t : Tokenizer) (cur : option (Z * Z)) (cursor i : nat),
  all_chars unquoted p = true -> t_quote t = Q_none ->
  exists t' cur',
    t_quote t' = Q_none
    /\ tok_scan t cur cursor i (p ++ rest)
       = tok_scan t' cur' cursor (i + String.length p) rest.
Proof.
  induction p as [|c p IH]; intros t cur cursor i Hp Hq.
  - exists t, cur. split; [exact Hq|]. cbn [append String.length]. now rewrite Nat.add_0_r.
  - cbn [all_chars] in Hp. apply andb_prop in Hp as [Hc Hp].
    destruct (tok_char_unquoted t c Hc Hq) as (t1 & H1 & Hq1).
    cbn [append tok_scan]. rewrite H1.
    destruct (IH t1 (if Nat.eqb i cursor
                     then Some (Z.of_nat (List.length (t_argv t)), strlen (t_word t))
                     else cur) cursor (S i) Hp Hq1) as (t' & cur' & Hq' & E).
    exists t', cur'. split; [exact Hq'|]. rewrite E. cbn [String.length].
    now rewrite Nat.add_succ_r.
Qed.

(** Inside a double quote that is never closed the scan ends with the
    return value 2. *)
Lemma tok_scan_double_quote (s : string) :
  forall (t : Tokenizer) (cur : option (Z * Z)) (cursor i : nat),
  all_chars inside_double_quote s = true -> t_quote t = Q_double ->
  tok_scan t cur cursor i s = TokMore 2.
Proof.
  induction s as [|c s IH]; intros t cur cursor i Hs Hq.
  - cbn [tok_scan]. now rewrite Hq.
  - cbn [all_chars] in Hs. apply andb_prop in Hs as [Hc Hs].
    unfold inside_double_quote in Hc. apply negb_true_iff in Hc.
    apply orb_false_iff in Hc as [Hdq Hbs].
    cbn [tok_scan]. unfold tok_char. rewrite Hq, Hdq, Hbs.
    destruct (Ascii.eqb c "'"); [apply IH; [exact Hs | reflexivity]|].
    destruct (Ascii.eqb c "010"); apply IH; try exact Hs; reflexivity.
Qed.

Lemma tok_line_open_quote (p s : string) (cursor : nat) :
  all_chars unquoted p = true ->
  all_chars inside_double_quote s = true ->
  tok_line {| buffer := p ++ String "034" s; cursor := cursor |} = TokMore 2.
Proof.
  intros Hp Hs. unfold tok_line. cbn [buffer Libedit.cursor].
  destruct (tok_scan_unquoted p (String "034" s) tok_reset None cursor 0 Hp eq_refl)
    as (t' & cur' & Hq & ->).
  cbn [tok_scan]. unfold tok_char. rewrite Hq.
  change (Ascii.eqb "034" "'") with false. change (Ascii.eqb "034" "034") with true.
  cbn iota. apply tok_scan_double_quote; [exact Hs | reflexivity].
Qed.

(** X11.  A line with a double quote that is not closed: [tok_line]
    returns 2 and writes neither [ac] nor [av].  Tab then reports
    [CC_ERROR] and changes nothing; Enter passes the test
    [tok_line (...) < 0] and reads [av[0]], which was never set. *)
Theorem open_quote_line (st : Session) (p s : string) :
  buffer (el_line (el st)) = p ++ String "034" s ->
  all_chars unquoted p = true ->
  all_chars inside_double_quote s = true ->
  tok_line (el_line (el st)) = TokMore 2
  /\ complete st = Ok (CC_ERROR, st, [])
  /\ (submitted (buffer (el_line (el st))) -> on_stdin_ready st = Undefined).
Proof.
  intros Hb Hp Hs.
  assert (Ht : tok_line (el_line (el st)) = TokMore 2).
  { destruct (el_line (el st)) as [b c] eqn:E. cbn [buffer] in Hb. subst b.
    now apply tok_line_open_quote. }
  split; [exact Ht|]. split.
  - unfold complete. rewrite Ht. cbn. now rewrite with_el_same.
  - intros Hsub. pose proof (submitted_nonempty _ Hsub) as Hpos.
    unfold on_stdin_ready. unfold submitted in Hsub. rewrite Hsub, Ht.
    change (is_newline "010"%char) with true. cbn [negb].
    destruct (Z.eqb_spec (strlen (buffer (el_line (el st)))) 0); [lia | reflexivity].
Qed.

Lemma open_quote_line_witness :
  let st := typing prompt_only fresh_hist ("/help " ++ String "034" ("qu" ++ LF)) 9 in
  tok_line (el_line (el st)) = TokMore 2
  /\ complete st = Ok (CC_ERROR, st, [])
  /\ (submitted (buffer (el_line (el st))) -> on_stdin_ready st = Undefined).
Proof.
  intros st.
  refine (open_quote_line st "/help " ("qu" ++ LF) eq_refl eq_refl eq_refl).
Defined.

End OpenQuote.

(** ** Lines without quotes

    A line without a quote character and without a backslash is
    always split completely, so that what is stated of a line that
    [tok_line] splits holds of every such line. *)

Section PlainLines.

Lemma last_char_app_newline (p : string) : last_char (p ++ LF) = Some "010"%char.
Proof.
  induction p as [|c p IH]; [reflexivity|].
  cbn [append last_char]. rewrite IH.
  destruct (p ++ LF) eqn:E; [|reflexivity].
  destruct p; discriminate.
Qed.

(** [tok_line] on what was typed, followed by the newline. *)
Lemma tok_line_unquoted (p : string) (cursor : nat) :
  all_chars unquoted p = true ->
  exists av cc co, tok_line {| buffer := p ++ LF; cursor := cursor |} = TokOk av cc co.
Proof.
  intros Hp. unfold tok_line. cbn [buffer Libedit.cursor].
  destruct (tok_scan_unquoted p LF tok_reset None cursor 0 Hp eq_refl)
    as (t' & cur' & Hq & ->).
  unfold LF. cbn [tok_scan]. unfold tok_char. rewrite Hq.
  change (Ascii.eqb "010" "'") with false. change (Ascii.eqb "010" "034") with false.
  change (Ascii.eqb "010" "\") with false. change (Ascii.eqb "010" "010") with true.
  cbv iota. unfold tok_out.
  destruct (if Nat.eqb _ cursor then _ else cur') as [[cc co]|]; now eexists _, _, _.
Qed.

End PlainLines.

(** ** The commands of the Matrix client *)

Section Rooms.

(** X12.  The completer of a room id returns NULL while there is no
    list of rooms; otherwise it returns the ids of the joined rooms
    that have the typed characters as a prefix, and every id it
    returns is the id of a room that [get_joined_room_by_id] finds. *)
Theorem room_completer_candidates (rooms : list CmRoom) (word : string) (pos : Z) :
  nul_free word = true ->
  0 <= pos <= strlen word ->
  pos <= INT_MAX ->
  matrix_command_opt_get_room_completion None word pos = None
  /\ matrix_command_opt_get_room_completion (Some rooms) word pos
     = Some (filter (fun id => prefix (take (Z.to_nat pos) word) id)
                    (map cm_room_get_id rooms))
  /\ forall cs id,
       matrix_command_opt_get_room_completion (Some rooms) word pos = Some cs ->
       In id cs ->
       exists room, get_joined_room_by_id (Some rooms) id = Some room
                    /\ cm_room_get_id room = id.
Proof.
  intros Hnul [Hlo Hhi] Hint.
  assert (Htest : forall room,
             (strncmp (cm_room_get_id room) word (to_size_t pos) =? 0)
             = prefix (take (Z.to_nat pos) word) (cm_room_get_id room)).
  { intros room. rewrite to_size_t_small by lia.
    replace pos with (Z.of_nat (Z.to_nat pos)) at 1 by lia.
    apply strncmp_prefix_nul_free; [|exact Hnul]. unfold strlen in Hhi. lia. }
  split; [reflexivity|]. split.
  - cbn [matrix_command_opt_get_room_completion]. f_equal.
    induction rooms as [|r rest IH]; [reflexivity|].
    cbn [filter map]. rewrite Htest.
    destruct (prefix _ (cm_room_get_id r)); cbn [map]; now rewrite IH.
  - intros cs id [= <-] Hin.
    apply in_map_iff in Hin as (r & <- & Hr). apply filter_In in Hr as [Hr _].
    cbn [get_joined_room_by_id]. clear Htest.
    induction rooms as [|r' rest IH]; [contradiction|].
    cbn [find]. unfold g_str_equal.
    destruct (String.eqb_spec (cm_room_get_id r) (cm_room_get_id r')) as [E|Hne].
    + exists r'. split; [reflexivity | now symmetry].
    + destruct Hr as [->|Hr]; [congruence | now apply IH].
Qed.

Lemma room_completer_candidates_witness :
  matrix_command_opt_get_room_completion
    (Some [{| cm_room_get_id := "!abc:example.org" |}; {| cm_room_get_id := "!xyz:example.org" |}])
    "!a" 2
  = Some ["!abc:example.org"].
Proof.
  refine (proj1 (proj2 (room_completer_candidates
            [{| cm_room_get_id := "!abc:example.org" |}; {| cm_room_get_id := "!xyz:example.org" |}]
            "!a" 2 eq_refl _ _))).
  - unfold strlen; simpl; lia.
  - unfold INT_MAX; lia.
Defined.

End Rooms.

Section Pushers.

Variable CmPusher : Type.
Variable cm_client_remove_pusher_sync : CmPusher -> bool * option string.

(** X13.  [ev_matrix_remove_pusher] never reaches outside the array of
    pushers: whatever the argument is, it either asks the library to
    remove a pusher that is in the array, at the index the argument
    converts to, or it asks for nothing and returns a failure with a
    message. *)
Theorem remove_pusher_in_bounds (pushers : option (list CmPusher)) (args : list string) :
  (forall p, cm_client_remove_pusher_sync p <> (false, None)) ->
  exists (r : HandlerResult) (call : option CmPusher),
    ev_matrix_remove_pusher CmPusher cm_client_remove_pusher_sync true pushers args
    = Ok (r, call)
    /\ match call with
       | Some p =>
           exists ps arg more i,
             pushers = Some ps /\ args = arg :: more
             /\ strtoll arg = (Z.of_nat i, true)
             /\ nth_error ps i = Some p
       | None => h_out r = None /\ h_err r <> None
       end.
Proof.
  intros Hsync. unfold ev_matrix_remove_pusher. cbn [negb].
  destruct args as [|arg more].
  { do 2 eexists. split; [reflexivity|]. split; [reflexivity | discriminate]. }
  destruct (strtoll arg) as [pusher_id converted] eqn:Hconv.
  destruct converted; cbn [negb].
  2:{ do 2 eexists. split; [reflexivity|]. split; [reflexivity | discriminate]. }
  destruct pushers as [ps|].
  2:{ do 2 eexists. split; [reflexivity|]. split; [reflexivity | discriminate]. }
  destruct (Z.geb_spec pusher_id (Z.of_nat (List.length ps))) as [Hge|Hlt]; cbn [orb].
  { do 2 eexists. split; [reflexivity|]. split; [reflexivity | discriminate]. }
  destruct (Z.ltb_spec pusher_id 0) as [Hneg|Hpos].
  { do 2 eexists. split; [reflexivity|]. split; [reflexivity | discriminate]. }
  destruct (nth_error ps (Z.to_nat pusher_id)) as [pusher|] eqn:Hn.
  2:{ apply nth_error_None in Hn. lia. }
  assert (Hfound : exists ps0 arg0 more0 i,
             Some ps = Some ps0 /\ arg :: more = arg0 :: more0
             /\ strtoll arg0 = (Z.of_nat i, true)
             /\ nth_error ps0 i = Some pusher).
  { exists ps, arg, more, (Z.to_nat pusher_id).
    repeat split; [|exact Hn]. rewrite Hconv. f_equal. lia. }
  destruct (cm_client_remove_pusher_sync pusher) as [[|] [message|]] eqn:Hs.
  - do 2 eexists. split; [reflexivity | exact Hfound].
  - do 2 eexists. split; [reflexivity | exact Hfound].
  - do 2 eexists. split; [reflexivity | exact Hfound].
  - exfalso. exact (Hsync pusher Hs).
Qed.

End Pushers.

Lemma remove_pusher_in_bounds_witness :
  exists (r : HandlerResult) (call : option string),
    ev_matrix_remove_pusher string (fun _ => (true, None)) true (Some ["p0"; "p1"]) ["1"]
    = Ok (r, call)
    /\ match call with
       | Some p =>
           exists ps arg more i,
             Some ["p0"; "p1"] = Some ps /\ ["1"] = arg :: more
             /\ strtoll arg = (Z.of_nat i, true)
             /\ nth_error ps i = Some p
       | None => h_out r = None /\ h_err r <> None
       end.
Proof.
  apply (remove_pusher_in_bounds string (fun _ => (true, None)) (Some ["p0"; "p1"]) ["1"]).
  intros p. discriminate.
Defined.

Example remove_pusher_out_of_range :
  ev_matrix_remove_pusher string (fun _ => (true, None)) true (Some ["p0"; "p1"])
    ["99999999999999999999"]
  = Ok (failure "Invalid pusher id '9223372036854775807'", None).
Proof. reflexivity. Qed.

Example remove_pusher_negative :
  ev_matrix_remove_pusher string (fun _ => (true, None)) true (Some ["p0"; "p1"]) ["-1"]
  = Ok (failure "Invalid pusher id '-1'", None).
Proof. reflexivity. Qed.

Example remove_pusher_no_number :
  ev_matrix_remove_pusher string (fun _ => (true, None)) true (Some ["p0"; "p1"]) ["one"]
  = Ok (failure "No numbers found in 'one'", None).
Proof. reflexivity. Qed.

Section PrintedNumbers.

Lemma read_digits_acc (d : Decimal.uint) : forall acc : positive,
  read_digits (NilEmpty.string_of_uint d) (Z.pos acc) true
  = (Z.pos (Pos.of_uint_acc d acc), true).
Proof.
  induction d as [|d IH|d IH|d IH|d IH|d IH|d IH|d IH|d IH|d IH|d IH]; intros acc;
    cbn [NilEmpty.string_of_uint read_digits Pos.of_uint_acc]; [reflexivity|..].
  all: match goal with
       | |- context [digit_value ?c] =>
           let v := eval vm_compute in (digit_value c) in
           change (digit_value c) with v
       end.
  all: cbv iota; rewrite <- IH; f_equal; lia.
Qed.

(** Reading the digits of a printed number gives the number back. *)
Lemma read_digits_uint (d : Decimal.uint) : forall any : bool,
  read_digits (NilEmpty.string_of_uint d) 0 any
  = (Z.of_N (Pos.of_uint d),
     match d with Decimal.Nil => any | _ => true end).
Proof.
  induction d as [|d IH|d IH|d IH|d IH|d IH|d IH|d IH|d IH|d IH|d IH]; intros any;
    cbn [NilEmpty.string_of_uint read_digits Pos.of_uint]; [reflexivity|..].
  all: match goal with
       | |- context [digit_value ?c] =>
           let v := eval vm_compute in (digit_value c) in
           change (digit_value c) with v
       end.
  all: cbv iota.
  - change (10 * 0 + 0) with 0. rewrite IH. now destruct d.
  - exact (read_digits_acc d 1).
  - exact (read_digits_acc d 2).
  - exact (read_digits_acc d 3).
  - exact (read_digits_acc d 4).
  - exact (read_digits_acc d 5).
  - exact (read_digits_acc d 6).
  - exact (read_digits_acc d 7).
  - exact (read_digits_acc d 8).
  - exact (read_digits_acc d 9).
Qed.

Lemma strtoll_uint (d : Decimal.uint) :
  d <> Decimal.Nil ->
  strtoll (NilEmpty.string_of_uint d)
  = (Z.max LLONG_MIN (Z.min LLONG_MAX (Z.of_N (Pos.of_uint d))), true).
Proof.
  intros Hd. pose proof (read_digits_uint d false) as Hr.
  destruct d; [congruence|..];
    unfold strtoll; cbn [NilEmpty.string_of_uint skip_spaces] in *;
    match goal with
    | |- context [isspace ?c] =>
        let v := eval vm_compute in (isspace c) in change (isspace c) with v
    end;
    cbv iota; rewrite Hr; reflexivity.
Qed.

(** [strtoll] reads what ["%ld"] prints. *)
Lemma strtoll_printf_d (n : Z) :
  0 <= n <= LLONG_MAX -> strtoll (printf_d n) = (n, true).
Proof.
  intros [Hlo Hhi]. unfold printf_d. destruct n as [|p|p]; [reflexivity| |lia].
  cbn [Z.to_int NilZero.string_of_int].
  pose proof (DecimalPos.Unsigned.to_uint_nonnil p) as Hnn.
  assert (E : NilZero.string_of_uint (Pos.to_uint p)
              = NilEmpty.string_of_uint (Pos.to_uint p))
    by (destruct (Pos.to_uint p); [congruence | reflexivity ..]).
  rewrite E, strtoll_uint by exact Hnn.
  rewrite DecimalPos.Unsigned.of_to. cbn [Z.of_N]. f_equal.
  unfold LLONG_MIN, LLONG_MAX in *. lia.
Qed.

Variable CmPusher : Type.
Variable cm_client_remove_pusher_sync : CmPusher -> bool * option string.

(** X14.  The number that the program prints for a pusher is the
    number [/remove-pusher] takes: for the decimal form of an index
    of the array the pusher at that index is handed to the library,
    and on success the buffer names the same number. *)
Theorem remove_pusher_accepts_printed_id (ps : list CmPusher) (i : nat) (p : CmPusher)
    (more : list string) :
  nth_error ps i = Some p ->
  Z.of_nat i <= LLONG_MAX ->
  fst (cm_client_remove_pusher_sync p) = true ->
  ev_matrix_remove_pusher CmPusher cm_client_remove_pusher_sync true (Some ps)
    (printf_d (Z.of_nat i) :: more)
  = Ok ({| h_out := Some ("Removed pusher " ++ printf_d (Z.of_nat i)); h_err := None |},
        Some p).
Proof.
  intros Hn Hmax Hs. unfold ev_matrix_remove_pusher. cbn [negb].
  rewrite strtoll_printf_d by lia. cbn [negb].
  assert (Hi : (i < List.length ps)%nat) by (apply nth_error_Some; congruence).
  destruct (Z.geb_spec (Z.of_nat i) (Z.of_nat (List.length ps))); [lia|].
  destruct (Z.ltb_spec (Z.of_nat i) 0); [lia|]. cbn [orb].
  rewrite Nat2Z.id, Hn.
  destruct (cm_client_remove_pusher_sync p) as [[|] err]; [reflexivity|].
  cbn [fst] in Hs. discriminate.
Qed.

End PrintedNumbers.

Lemma remove_pusher_accepts_printed_id_witness :
  ev_matrix_remove_pusher string (fun _ => (true, None)) true (Some ["p0"; "p1"; "p2"]) ["2"]
  = Ok ({| h_out := Some "Removed pusher 2"; h_err := None |}, Some "p2").
Proof.
  refine (remove_pusher_accepts_printed_id string (fun _ => (true, None))
            ["p0"; "p1"; "p2"] 2 "p2" [] eq_refl _ eq_refl).
  unfold LLONG_MAX; lia.
Defined.

(** ** The registry of the program *)

Section ProgramRegistry.

Lemma ev_cmds_get_loop_nodup (cmds : list EvCmd) (c : EvCmd) :
  NoDup (map name cmds) -> In c cmds ->
  ev_cmds_get_loop cmds (name c) = Some c.
Proof.
  induction cmds as [|c' rest IH]; [contradiction|].
  cbn [map]. intros Hnd Hin. apply NoDup_cons_iff in Hnd as [Hnotin Hnd].
  cbn [ev_cmds_get_loop]. unfold g_str_equal.
  destruct Hin as [->|Hin]; [now rewrite String.eqb_refl|].
  destruct (String.eqb_spec (name c) (name c')) as [E|_]; [|now apply IH].
  exfalso. apply Hnotin. rewrite <- E. now apply in_map.
Qed.

Variable handler : string -> EvCmdFunc.
Variable opt_completer : string -> EvCmdOptCompl.

(** X15.  When the start of the application has set up the prompt,
    the registry holds the commands of the Matrix client in front of
    those of the prompt, or those of the prompt alone under the debug
    flag, and no command of the program hides another: every
    registered command is the one its name resolves to. *)
Theorem startup_registry (old : option Session) (no_matrix : bool)
    (file : option (list string)) (st : Session) :
  ev_application_startup handler opt_completer old no_matrix file = Ok st ->
  commands st
  = ((if no_matrix then [] else table_entries (matrix_commands handler opt_completer))
       ++ table_entries (prompt_commands handler))%list
  /\ forall c, In c (commands st) ->
       ev_cmds_get (commands st) (Some (name c)) = Some c.
Proof.
  unfold ev_application_startup, ev_prompt_init.
  destruct old as [s|]; [discriminate|]. intros [= <-]. cbn [commands].
  unfold ev_prompt_add_commands, ev_matrix_add_commands.
  assert (Hcmds : add_commands (prompt_commands handler)
                    (if no_matrix then []
                     else add_commands (matrix_commands handler opt_completer) [])
                  = ((if no_matrix then []
                      else table_entries (matrix_commands handler opt_completer))
                       ++ table_entries (prompt_commands handler))%list).
  { rewrite add_commands_entries. destruct no_matrix; [reflexivity|].
    now rewrite add_commands_entries. }
  rewrite Hcmds. split; [reflexivity|].
  intros c Hin. cbn [ev_cmds_get]. apply ev_cmds_get_loop_nodup; [|exact Hin].
  destruct no_matrix; cbn;
    repeat (constructor; [cbn; intuition discriminate|]); constructor.
Qed.

End ProgramRegistry.

Lemma startup_registry_witness :
  let st := {| commands := full_registry; el := el_init; hist := fresh_hist |} in
  commands st
  = (table_entries (matrix_commands demo_handler demo_completer)
       ++ table_entries (prompt_commands demo_handler))%list
  /\ forall c, In c (commands st) ->
       ev_cmds_get (commands st) (Some (name c)) = Some c.
Proof.
  intros st.
  exact (startup_registry demo_handler demo_completer None false None st eq_refl).
Defined.

(** ** The argument of help *)

Section HelpArgument.

(** X17.  What the completer of the argument of [help] offers, [help]
    knows: a candidate is the name of a command that the lookup
    finds, and the answer of [help] for it is never the
    unknown-command message. *)
Theorem help_knows_its_candidates (st : Session) (word : string) (pos : Z)
    (cs : list string) (candidate : string) (more : list string) :
  help_command_opt_get_completion (statics_of st) word pos = Some cs ->
  In candidate cs ->
  exists cmd : EvCmd,
    ev_cmds_get (commands st) (Some candidate) = Some cmd
    /\ name cmd = candidate
    /\ ev_prompt_print_help (commands st) (Some (candidate :: more))
       <> Ok ("Unknown command " ++ candidate ++ LF).
Proof.
  unfold help_command_opt_get_completion. intros [= <-] Hin.
  apply filter_In in Hin as [Hin _]. cbn [statics_of s_names] in Hin.
  apply in_map_iff in Hin as (c & <- & Hc).
  destruct (ev_cmds_get_loop_registered _ _ Hc) as (first & Hget & Hname).
  exists first. split; [exact Hget|]. split; [exact Hname|].
  cbn [ev_prompt_print_help]. cbn [ev_cmds_get] in Hget. cbn [ev_cmds_get]. rewrite Hget.
  destruct (opts first) as [os|].
  - destruct (opt_lines os (max_opt_len os 0 + 4)) as [lines| |]; cbn [bind];
      discriminate.
  - discriminate.
Qed.

Lemma help_knows_its_candidates_witness :
  exists cmd : EvCmd,
    ev_cmds_get prompt_only (Some "quit") = Some cmd
    /\ name cmd = "quit"
    /\ ev_prompt_print_help prompt_only (Some ["quit"])
       <> Ok ("Unknown command " ++ "quit" ++ LF).
Proof.
  refine (help_knows_its_candidates (typing prompt_only fresh_hist "/help q" 7)
            "q" 1 ["quit"] "quit" [] eq_refl _).
  now left.
Defined.

End HelpArgument.
